(** * Super-SloMo-tf2: the layers of [models/layers.py]

    A shallow embedding of the six Keras layers of the module ([UNet],
    [Encoder], [Decoder], [BackWarp], [OpticalFlow], [Output]) and the
    properties of their [call] methods.

    Tensors are rank-4 arrays in NHWC layout.  Their entries are modelled
    as real numbers: the arithmetic of the layers is the exact arithmetic
    of the flow-interpolation equations, not its rounding to a float type.
    Where rounding changes a property, the lines concerned are modelled a
    second time on one entry in IEEE binary32 ([Float32], [visibility32]).
    Operations that TensorFlow rejects (shapes that do not broadcast, a
    negative padding, a concatenation of tensors of different extents)
    return [None]. *)

From Stdlib Require Import Reals Lra Lia ZArith List Bool Arith.
From Stdlib Require Import Zfloor.
From Stdlib Require Import Floats.SpecFloat.
Import ListNotations.

Local Open Scope R_scope.

(** ** Tensors *)

(** [x.shape] of a rank-4 tensor: [shape[0]] is the batch size, [shape[1]]
    the height, [shape[2]] the width and [shape[3]] the number of channels. *)
Record shape : Type := Shape
  { batch : nat; height : nat; width : nat; channels : nat }.

Record tensor : Type := Tensor
  { tshape : shape; elt : nat -> nat -> nat -> nat -> R }.

Definition shape_eqb (s1 s2 : shape) : bool :=
  (batch s1 =? batch s2)%nat && (height s1 =? height s2)%nat &&
  (width s1 =? width s2)%nat && (channels s1 =? channels s2)%nat.

(** The index [(b, i, j, c)] addresses an entry of a tensor of shape [s]. *)
Definition in_range (s : shape) (b i j c : nat) : Prop :=
  (b < batch s /\ i < height s /\ j < width s /\ c < channels s)%nat.

(** Two tensors are the same array: same shape, same entries. *)
Definition same_tensor (x y : tensor) : Prop :=
  tshape x = tshape y /\
  forall b i j c, in_range (tshape x) b i j c -> elt x b i j c = elt y b i j c.

(** ** Failure *)

Definition bind {A B : Type} (m : option A) (k : A -> option B) : option B :=
  match m with
  | Some a => k a
  | None => None
  end.

Notation "x <- m ;; k" := (bind m (fun x => k))
  (at level 61, m at next level, right associativity).
Notation "' p <- m ;; k" := (bind m (fun x => match x with p => k end))
  (at level 61, p pattern, m at next level, right associativity).

(** ** Elementwise operations and broadcasting *)

(** A Python scalar combined with a tensor ([1 - t], [-1 * x], [z + 1e-12])
    acts on every entry and keeps the shape. *)
Definition tmap (f : R -> R) (x : tensor) : tensor :=
  Tensor (tshape x) (fun b i j c => f (elt x b i j c)).

(** Broadcasting of one axis: equal extents, or one of them is 1. *)
Definition bcast_dim (a b : nat) : option nat :=
  if (a =? b)%nat then Some a
  else if (a =? 1)%nat then Some b
  else if (b =? 1)%nat then Some a
  else None.

Definition bcast_shape (s1 s2 : shape) : option shape :=
  b <- bcast_dim (batch s1) (batch s2) ;;
  h <- bcast_dim (height s1) (height s2) ;;
  w <- bcast_dim (width s1) (width s2) ;;
  c <- bcast_dim (channels s1) (channels s2) ;;
  Some (Shape b h w c).

(** Every extent of [s1] is the extent of [s] or 1. *)
Definition broadcasts_to (s1 s : shape) : Prop :=
  (batch s1 = batch s \/ batch s1 = 1%nat) /\
  (height s1 = height s \/ height s1 = 1%nat) /\
  (width s1 = width s \/ width s1 = 1%nat) /\
  (channels s1 = channels s \/ channels s1 = 1%nat).

(** An axis of extent 1 is read at index 0 whatever the index asked. *)
Definition bidx (d i : nat) : nat := if (d =? 1)%nat then 0%nat else i.

(** The entry of [x] that the broadcast of [x] has at [(b, i, j, c)]. *)
Definition belt (x : tensor) (b i j c : nat) : R :=
  elt x (bidx (batch (tshape x)) b) (bidx (height (tshape x)) i)
        (bidx (width (tshape x)) j) (bidx (channels (tshape x)) c).

(** The entry that the broadcast of [x] has at [(b, i, j, c)] is an entry of
    [x]. *)
Definition bread (x : tensor) (b i j c : nat) : Prop :=
  in_range (tshape x)
    (bidx (batch (tshape x)) b) (bidx (height (tshape x)) i)
    (bidx (width (tshape x)) j) (bidx (channels (tshape x)) c).

(** [x op y] for two tensors. *)
Definition tzip (op : R -> R -> R) (x y : tensor) : option tensor :=
  s <- bcast_shape (tshape x) (tshape y) ;;
  Some (Tensor s (fun b i j c => op (belt x b i j c) (belt y b i j c))).

Definition tf_add := tzip Rplus.
Definition tf_sub := tzip Rminus.
Definition tf_mul := tzip Rmult.
Definition tf_divide := tzip Rdiv.

(** ** Slicing, concatenation, padding *)

(** [x[:, :, :, lo:hi]]: Python clips the bounds of a slice to the extent. *)
Definition slice_channels (lo hi : nat) (x : tensor) : tensor :=
  let C := channels (tshape x) in
  Tensor (Shape (batch (tshape x)) (height (tshape x)) (width (tshape x))
                (Nat.min hi C - Nat.min lo C))
         (fun b i j c => elt x b i j (lo + c)).

(** Concatenation of two tensors along axis 3. *)
Definition concat2 (x y : tensor) : option tensor :=
  let sx := tshape x in
  let sy := tshape y in
  if (batch sx =? batch sy)%nat && (height sx =? height sy)%nat &&
     (width sx =? width sy)%nat
  then Some (Tensor (Shape (batch sx) (height sx) (width sx)
                           (channels sx + channels sy))
                    (fun b i j c =>
                       if (c <? channels sx)%nat then elt x b i j c
                       else elt y b i j (c - channels sx)))
  else None.

(** [tf.concat(xs, axis=3)] and [Concatenate(axis=3)(xs)]. *)
Definition tf_concat3 (xs : list tensor) : option tensor :=
  match xs with
  | [] => None
  | x :: rest => fold_left (fun acc y => a <- acc ;; concat2 a y) rest (Some x)
  end.

(** [tf.pad(x, paddings)] in its default mode: constant padding with zeros.
    [paddings] has one [[before, after]] pair for each of the four axes. *)
Definition tf_pad (x : tensor) (paddings : list (Z * Z)) : option tensor :=
  match paddings with
  | [(b0, b1); (h0, h1); (w0, w1); (c0, c1)] =>
      if ((0 <=? b0) && (0 <=? b1) && (0 <=? h0) && (0 <=? h1) &&
          (0 <=? w0) && (0 <=? w1) && (0 <=? c0) && (0 <=? c1))%Z
      then
        let s := tshape x in
        let nb := Z.to_nat b0 in
        let nh := Z.to_nat h0 in
        let nw := Z.to_nat w0 in
        let nc := Z.to_nat c0 in
        Some (Tensor
                (Shape (nb + batch s + Z.to_nat b1) (nh + height s + Z.to_nat h1)
                       (nw + width s + Z.to_nat w1) (nc + channels s + Z.to_nat c1))
                (fun b i j c =>
                   if (nb <=? b)%nat && (b <? nb + batch s)%nat &&
                      (nh <=? i)%nat && (i <? nh + height s)%nat &&
                      (nw <=? j)%nat && (j <? nw + width s)%nat &&
                      (nc <=? c)%nat && (c <? nc + channels s)%nat
                   then elt x (b - nb) (i - nh) (j - nw) (c - nc)
                   else 0))
      else None
  | _ => None
  end.

(** ** Activations *)

(** [tf.keras.layers.LeakyReLU(alpha)]: [alpha * v] below zero, [v] above. *)
Definition leaky (alpha v : R) : R :=
  if Rlt_dec v 0 then alpha * v else v.

Module LeakyReLU.

Record t : Type := new { alpha : R }.

Definition call (self : t) (inputs : tensor) : tensor :=
  tmap (leaky (alpha self)) inputs.

End LeakyReLU.

(** [tf.keras.activations.sigmoid]: [1 / (1 + exp(-v))]. *)
Definition sigmoid (v : R) : R := 1 / (1 + exp (- v)).

(** ** Backward warping *)

(** The interpolation of [grid] at the real location [(qy, qx)] of batch
    entry [b], channel [c].  The corner is the floor of the location, kept
    inside [0 .. size - 2] so that the next row and column exist; the
    weights are the distances to the corner, kept inside [0 .. 1], which
    repeats the border for locations outside the image. *)
Definition floor_index (size : nat) (q : R) : Z :=
  Z.min (Z.max 0 (Zfloor q)) (Z.of_nat size - 2).

Definition interpolate_bilinear (grid : tensor) (b : nat) (qy qx : R) (c : nat) : R :=
  let fy := floor_index (height (tshape grid)) qy in
  let fx := floor_index (width (tshape grid)) qx in
  let alpha_y := Rmin (Rmax 0 (qy - IZR fy)) 1 in
  let alpha_x := Rmin (Rmax 0 (qx - IZR fx)) 1 in
  let y0 := Z.to_nat fy in
  let x0 := Z.to_nat fx in
  let top_left := elt grid b y0 x0 c in
  let top_right := elt grid b y0 (x0 + 1) c in
  let bottom_left := elt grid b (y0 + 1) x0 c in
  let bottom_right := elt grid b (y0 + 1) (x0 + 1) c in
  let interp_top := alpha_x * (top_right - top_left) + top_left in
  let interp_bottom := alpha_x * (bottom_right - bottom_left) + bottom_left in
  alpha_y * (interp_bottom - interp_top) + interp_top.

(** Modelled from the spec: [tfa.image.dense_image_warp] is a function of the
    TensorFlow Addons library, which [layers.py] imports and does not
    define.  The model follows the words of the specification (a bilinear
    backward warp: the output at [(b, i, j, c)] is the image interpolated at
    [(i - flow[b,i,j,0], j - flow[b,i,j,1])]) and the documented contract of
    the library function: the flow has the shape [[B, H, W, 2]] of the image
    grid, the image is at least 2 by 2, and locations outside the image take
    the nearest border values. *)
Definition dense_image_warp (image flow : tensor) : option tensor :=
  let s := tshape image in
  if (2 <=? height s)%nat && (2 <=? width s)%nat &&
     shape_eqb (tshape flow) (Shape (batch s) (height s) (width s) 2)
  then Some (Tensor s (fun b i j c =>
               interpolate_bilinear image b
                 (INR i - elt flow b i j 0) (INR j - elt flow b i j 1) c))
  else None.

(** ** The Keras layers the module builds on *)

Inductive padding_mode : Type := same | valid.
Inductive resize_method : Type := nearest | bilinear.

(** The trained variables of a convolution: kernel [[kh, kw, cin, cout]]
    and bias [[cout]]. *)
Record variables : Type := Variables
  { kernel : nat -> nat -> nat -> nat -> R; bias : nat -> R }.

Module Conv2D.

Record t : Type := new
  { filters : nat; kernel_size : nat; strides : nat; padding : padding_mode;
    weights : variables }.

End Conv2D.

Module AveragePooling2D.

(** [AveragePooling2D()] has [pool_size=(2, 2)], [strides=None] (the pool
    size) and [padding="valid"]. *)
Record t : Type := new
  { pool_size : nat * nat; strides : option (nat * nat); padding : padding_mode }.

Definition default : t := new (2, 2)%nat None valid.

End AveragePooling2D.

Module UpSampling2D.

(** [UpSampling2D(interpolation=...)] has [size=(2, 2)]. *)
Record t : Type := new { size : nat * nat; interpolation : resize_method }.

End UpSampling2D.

(** What the tensor engine computes for these layers is not part of the
    module: the layers of [layers.py] are stated over any engine. *)
Class Framework : Type :=
  { conv2d : Conv2D.t -> tensor -> option tensor;
    average_pooling2d : AveragePooling2D.t -> tensor -> option tensor;
    up_sampling2d : UpSampling2D.t -> tensor -> option tensor }.

(** The shapes Keras documents for these layers, on tensors that have at
    least one row and one column: a convolution with [padding="same"] and
    stride 1 keeps the spatial extents and has [filters] channels; a 2 by 2
    average pooling with [padding="valid"] floor-halves extents of at least
    2; an upsampling of size 2 doubles them.  The contract says nothing of
    tensors without rows or columns. *)
Class FrameworkShapes (F : Framework) : Prop :=
  { conv2d_shape : forall l x,
      Conv2D.padding l = same -> Conv2D.strides l = 1%nat ->
      (1 <= Conv2D.kernel_size l)%nat ->
      (1 <= height (tshape x))%nat -> (1 <= width (tshape x))%nat ->
      exists y, conv2d l x = Some y /\
        tshape y = Shape (batch (tshape x)) (height (tshape x))
                         (width (tshape x)) (Conv2D.filters l);
    average_pooling2d_shape : forall x,
      (2 <= height (tshape x))%nat -> (2 <= width (tshape x))%nat ->
      exists y, average_pooling2d AveragePooling2D.default x = Some y /\
        tshape y = Shape (batch (tshape x)) (height (tshape x) / 2)%nat
                         (width (tshape x) / 2)%nat (channels (tshape x));
    up_sampling2d_shape : forall m x,
      (1 <= height (tshape x))%nat -> (1 <= width (tshape x))%nat ->
      exists y, up_sampling2d (UpSampling2D.new (2, 2)%nat m) x = Some y /\
        tshape y = Shape (batch (tshape x)) (2 * height (tshape x))%nat
                         (2 * width (tshape x))%nat (channels (tshape x)) }.

(** The bilinear resizing behind [UpSampling2D] refuses an image without
    rows or columns ("input image must be of non-zero size"). *)
Class FrameworkErrors (F : Framework) : Prop :=
  { up_sampling2d_empty : forall l x,
      height (tshape x) = 0%nat \/ width (tshape x) = 0%nat ->
      up_sampling2d l x = None }.

(** ** [class Encoder]: average pooling, then two convolutions with
    LeakyReLU *)

Module Encoder.

Record weights : Type := Weights { w_conv1 : variables; w_conv2 : variables }.

Record t : Type := new
  { filters : nat; kernel_size : nat;
    conv1 : Conv2D.t; conv2 : Conv2D.t;
    avg_pool : AveragePooling2D.t; leaky_relu : LeakyReLU.t }.

(** [Encoder(filters, kernel_size)] once built. *)
Definition build (filters kernel_size : nat) (w : weights) : t :=
  {| filters := filters;
     kernel_size := kernel_size;
     conv1 := Conv2D.new filters kernel_size 1 same (w_conv1 w);
     conv2 := Conv2D.new filters kernel_size 1 same (w_conv2 w);
     avg_pool := AveragePooling2D.default;
     leaky_relu := LeakyReLU.new 0.1 |}.

Section Call.
Context {F : Framework}.

Definition call (self : t) (inputs : tensor) : option tensor :=
  x <- average_pooling2d (avg_pool self) inputs ;;
  x <- conv2d (conv1 self) x ;;
  let x := LeakyReLU.call (leaky_relu self) x in
  x <- conv2d (conv2 self) x ;;
  let x := LeakyReLU.call (leaky_relu self) x in
  Some x.

End Call.

End Encoder.

(** ** [class Decoder]: bilinear upsampling, convolution, padding to the
    skip tensor, concatenation, convolution *)

Module Decoder.

Record weights : Type := Weights { w_conv1 : variables; w_conv2 : variables }.

Record t : Type := new
  { filters : nat;
    conv1 : Conv2D.t; conv2 : Conv2D.t;
    interpolation : UpSampling2D.t; leaky_relu : LeakyReLU.t }.

(** [Decoder(filters)] once built. *)
Definition build (filters : nat) (w : weights) : t :=
  {| filters := filters;
     conv1 := Conv2D.new filters 3 1 same (w_conv1 w);
     conv2 := Conv2D.new filters 3 1 same (w_conv2 w);
     interpolation := UpSampling2D.new (2, 2)%nat bilinear;
     leaky_relu := LeakyReLU.new 0.1 |}.

(** The [paddings] argument of the call: nothing on the batch and channel
    axes, nothing before the rows and columns, [x_delta] rows and [y_delta]
    columns after them. *)
Definition paddings (x skip : tensor) : list (Z * Z) :=
  let x_delta := (Z.of_nat (height (tshape skip)) - Z.of_nat (height (tshape x)))%Z in
  let y_delta := (Z.of_nat (width (tshape skip)) - Z.of_nat (width (tshape x)))%Z in
  [(0, 0); (0, x_delta); (0, y_delta); (0, 0)]%Z.

Section Call.
Context {F : Framework}.

Definition call (self : t) (inputs : tensor * tensor) : option tensor :=
  let '(x, skip) := inputs in
  x <- up_sampling2d (interpolation self) x ;;
  x <- conv2d (conv1 self) x ;;
  let x := LeakyReLU.call (leaky_relu self) x in
  x <- tf_pad x (paddings x skip) ;;
  x <- tf_concat3 [x; skip] ;;
  x <- conv2d (conv2 self) x ;;
  let x := LeakyReLU.call (leaky_relu self) x in
  Some x.

End Call.

End Decoder.

(** ** [class UNet] *)

Module UNet.

Record weights : Type := Weights
  { w_conv1 : variables; w_conv2 : variables;
    w_encoder1 : Encoder.weights; w_encoder2 : Encoder.weights;
    w_encoder3 : Encoder.weights; w_encoder4 : Encoder.weights;
    w_encoder5 : Encoder.weights;
    w_decoder1 : Decoder.weights; w_decoder2 : Decoder.weights;
    w_decoder3 : Decoder.weights; w_decoder4 : Decoder.weights;
    w_decoder5 : Decoder.weights;
    w_conv3 : variables }.

Record t : Type := new
  { out_filters : nat;
    leaky_relu : LeakyReLU.t;
    conv1 : Conv2D.t; conv2 : Conv2D.t;
    encoder1 : Encoder.t; encoder2 : Encoder.t; encoder3 : Encoder.t;
    encoder4 : Encoder.t; encoder5 : Encoder.t;
    decoder1 : Decoder.t; decoder2 : Decoder.t; decoder3 : Decoder.t;
    decoder4 : Decoder.t; decoder5 : Decoder.t;
    conv3 : Conv2D.t }.

(** [UNet(out_filters)] once built. *)
Definition build (out_filters : nat) (w : weights) : t :=
  {| out_filters := out_filters;
     leaky_relu := LeakyReLU.new 0.1;
     conv1 := Conv2D.new 32 7 1 same (w_conv1 w);
     conv2 := Conv2D.new 32 7 1 same (w_conv2 w);
     encoder1 := Encoder.build 64 5 (w_encoder1 w);
     encoder2 := Encoder.build 128 5 (w_encoder2 w);
     encoder3 := Encoder.build 256 3 (w_encoder3 w);
     encoder4 := Encoder.build 512 3 (w_encoder4 w);
     encoder5 := Encoder.build 512 3 (w_encoder5 w);
     decoder1 := Decoder.build 512 (w_decoder1 w);
     decoder2 := Decoder.build 256 (w_decoder2 w);
     decoder3 := Decoder.build 128 (w_decoder3 w);
     decoder4 := Decoder.build 64 (w_decoder4 w);
     decoder5 := Decoder.build 32 (w_decoder5 w);
     conv3 := Conv2D.new out_filters 3 1 same (w_conv3 w) |}.

Section Call.
Context {F : Framework}.

Definition call (self : t) (inputs : tensor) : option tensor :=
  x_enc <- conv2d (conv1 self) inputs ;;
  let x_enc := LeakyReLU.call (leaky_relu self) x_enc in
  skip <- conv2d (conv2 self) x_enc ;;
  let skip1 := LeakyReLU.call (leaky_relu self) skip in
  skip2 <- Encoder.call (encoder1 self) skip1 ;;
  skip3 <- Encoder.call (encoder2 self) skip2 ;;
  skip4 <- Encoder.call (encoder3 self) skip3 ;;
  skip5 <- Encoder.call (encoder4 self) skip4 ;;
  x_enc <- Encoder.call (encoder5 self) skip5 ;;
  x_dec <- Decoder.call (decoder1 self) (x_enc, skip5) ;;
  x_dec <- Decoder.call (decoder2 self) (x_dec, skip4) ;;
  x_dec <- Decoder.call (decoder3 self) (x_dec, skip3) ;;
  x_dec <- Decoder.call (decoder4 self) (x_dec, skip2) ;;
  x_dec <- Decoder.call (decoder5 self) (x_dec, skip1) ;;
  x_dec <- conv2d (conv3 self) x_dec ;;
  let x_dec := LeakyReLU.call (leaky_relu self) x_dec in
  Some x_dec.

End Call.

End UNet.

(** ** [class BackWarp] *)

Module BackWarp.

Record t : Type := new { backwarp : tensor -> tensor -> option tensor }.

Definition build : t := {| backwarp := dense_image_warp |}.

Definition call (self : t) (inputs : tensor * tensor) : option tensor :=
  let '(image, flow) := inputs in
  img_backwarp <- backwarp self image flow ;;
  Some img_backwarp.

End BackWarp.

(** [k - x], [k * x] and [x + k] for a Python number [k]. *)
Definition rsub (k : R) (x : tensor) : tensor := tmap (fun v => k - v) x.
Definition rmul (k : R) (x : tensor) : tensor := tmap (fun v => k * v) x.
Definition radd (x : tensor) (k : R) : tensor := tmap (fun v => v + k) x.

(** ** [class OpticalFlow] *)

Module OpticalFlow.

Record t : Type := new
  { flow_interp_layer : UNet.t;
    backwarp_layer_t0 : BackWarp.t; backwarp_layer_t1 : BackWarp.t }.

Definition build (w : UNet.weights) : t :=
  {| flow_interp_layer := UNet.build 5 w;
     backwarp_layer_t0 := BackWarp.build;
     backwarp_layer_t1 := BackWarp.build |}.

(** Lines 158 to 163 of [call]: the intermediate flows [f_t0_t] and
    [f_t1_t]. *)
Definition intermediate_flows (f_01 f_10 t_indeces : tensor)
  : option (tensor * tensor) :=
  t0_value <- tf_mul (rmul (-1) (rsub 1 t_indeces)) t_indeces ;;
  t1_value <- tf_mul t_indeces t_indeces ;;
  a <- tf_mul t0_value f_01 ;;
  b <- tf_mul t1_value f_10 ;;
  f_t0_t <- tf_add a b ;;
  t1_value <- tf_mul (rsub 1 t_indeces) (rsub 1 t_indeces) ;;
  a <- tf_mul t1_value f_01 ;;
  b <- tf_mul t0_value f_10 ;;
  f_t1_t <- tf_sub a b ;;
  Some (f_t0_t, f_t1_t).

Section Call.
Context {F : Framework}.

Definition call (self : t)
  (inputs : tensor * tensor * tensor * tensor * tensor)
  : option (tensor * tensor * tensor * tensor * tensor * tensor) :=
  let '(frames_0, frames_1, f_01, f_10, t_indeces) := inputs in
  '(f_t0_t, f_t1_t) <- intermediate_flows f_01 f_10 t_indeces ;;
  g_i0_ft0 <- BackWarp.call (backwarp_layer_t0 self) (frames_0, f_t0_t) ;;
  g_i1_ft1 <- BackWarp.call (backwarp_layer_t1 self) (frames_1, f_t1_t) ;;
  flow_interp_in <-
    tf_concat3 [frames_0; frames_1; f_01; f_10; f_t1_t; f_t0_t; g_i1_ft1; g_i0_ft0] ;;
  flow_interp_out <- UNet.call (flow_interp_layer self) flow_interp_in ;;
  let delta_f_t0 := slice_channels 0 2 flow_interp_out in
  let delta_f_t1 := slice_channels 2 4 flow_interp_out in
  let v_t0 := tmap sigmoid (slice_channels 4 5 flow_interp_out) in
  let v_t1 := rsub 1 v_t0 in
  f_t0 <- tf_add f_t0_t delta_f_t0 ;;
  f_t1 <- tf_add f_t1_t delta_f_t1 ;;
  Some (f_t0, v_t0, f_t1, v_t1, g_i0_ft0, g_i1_ft1).

End Call.

End OpticalFlow.

(** ** [class Output] *)

Module Output.

Record t : Type := new
  { backwarp_layer_t0 : BackWarp.t; backwarp_layer_t1 : BackWarp.t }.

Definition build : t :=
  {| backwarp_layer_t0 := BackWarp.build; backwarp_layer_t1 := BackWarp.build |}.

(** Line 203 of [call]: the denominator [z]. *)
Definition denominator (v_t0 v_t1 t_indeces : tensor) : option tensor :=
  a <- tf_mul (rsub 1 t_indeces) v_t0 ;;
  b <- tf_mul t_indeces v_t1 ;;
  z <- tf_add a b ;;
  Some (radd z 1e-12).

(** Line 204 of [call]: the numerator. *)
Definition numerator (v_t0 v_t1 t_indeces g_i0_ft0 g_i1_ft1 : tensor)
  : option tensor :=
  a <- tf_mul (rsub 1 t_indeces) v_t0 ;;
  a <- tf_mul a g_i0_ft0 ;;
  b <- tf_mul t_indeces v_t1 ;;
  b <- tf_mul b g_i1_ft1 ;;
  tf_add a b.

Definition call (self : t)
  (inputs : tensor * tensor * tensor * tensor * tensor * tensor * tensor)
  : option tensor :=
  let '(frames_0, f_t0, v_t0, frames_1, f_t1, v_t1, t_indeces) := inputs in
  g_i0_ft0 <- BackWarp.call (backwarp_layer_t0 self) (frames_0, f_t0) ;;
  g_i1_ft1 <- BackWarp.call (backwarp_layer_t1 self) (frames_1, f_t1) ;;
  z <- denominator v_t0 v_t1 t_indeces ;;
  frame_pred <- numerator v_t0 v_t1 t_indeces g_i0_ft0 g_i1_ft1 ;;
  frame_pred <- tf_divide frame_pred z ;;
  Some frame_pred.

End Output.

(** ** A reference tensor engine

    One implementation of the three Keras layers, with the arithmetic Keras
    documents for them; it shows that the shape contract can be met and lets
    the layers of the module run on concrete tensors. *)

Fixpoint sum_upto (n : nat) (f : nat -> R) : R :=
  match n with
  | O => 0
  | S k => sum_upto k f + f k
  end.

(** The input entry under kernel position [(di, dj)] of output pixel
    [(i, j)], zero in the padded border; [p] rows and columns are padded
    before the image. *)
Definition padded_entry (x : tensor) (p b i j di dj c : nat) : R :=
  if (p <=? i + di)%nat && (i + di <? p + height (tshape x))%nat &&
     (p <=? j + dj)%nat && (j + dj <? p + width (tshape x))%nat
  then elt x b (i + di - p) (j + dj - p) c
  else 0.

Definition reference_conv2d (l : Conv2D.t) (x : tensor) : option tensor :=
  match Conv2D.padding l, Conv2D.strides l with
  | same, 1%nat =>
      let k := Conv2D.kernel_size l in
      let p := ((k - 1) / 2)%nat in
      let w := Conv2D.weights l in
      Some (Tensor
              (Shape (batch (tshape x)) (height (tshape x)) (width (tshape x))
                     (Conv2D.filters l))
              (fun b i j f =>
                 bias w f +
                 sum_upto k (fun di => sum_upto k (fun dj =>
                   sum_upto (channels (tshape x)) (fun c =>
                     padded_entry x p b i j di dj c * kernel w di dj c f)))))
  | _, _ => None
  end.

Definition reference_average_pooling2d (l : AveragePooling2D.t) (x : tensor)
  : option tensor :=
  match l with
  | AveragePooling2D.new (2%nat, 2%nat) None valid =>
      if (2 <=? height (tshape x))%nat && (2 <=? width (tshape x))%nat
      then Some (Tensor
                   (Shape (batch (tshape x)) (height (tshape x) / 2)
                          (width (tshape x) / 2) (channels (tshape x)))
                   (fun b i j c =>
                      (elt x b (2 * i) (2 * j) c + elt x b (2 * i) (2 * j + 1) c +
                       elt x b (2 * i + 1) (2 * j) c +
                       elt x b (2 * i + 1) (2 * j + 1) c) / 4))
      else None
  | _ => None
  end.

(** Bilinear resizing along one axis, with half-pixel centres: the source
    coordinate of output index [i], its two neighbours and the weight of the
    upper one. *)
Definition source_coordinate (i : nat) : R := (INR i + / 2) / 2 - / 2.

Definition lower_index (q : R) : nat := Z.to_nat (Z.max (Zfloor q) 0).

Definition upper_index (size : nat) (q : R) : nat :=
  Z.to_nat (Z.min (Zceil q) (Z.of_nat size - 1)).

Definition reference_up_sampling2d (l : UpSampling2D.t) (x : tensor)
  : option tensor :=
  match l with
  | UpSampling2D.new (2%nat, 2%nat) m =>
      let s := tshape x in
      if (height s =? 0)%nat || (width s =? 0)%nat then None else
      Some (Tensor
              (Shape (batch s) (2 * height s) (2 * width s) (channels s))
              (fun b i j c =>
                 match m with
                 | nearest => elt x b (i / 2) (j / 2) c
                 | bilinear =>
                     let qy := source_coordinate i in
                     let qx := source_coordinate j in
                     let ly := qy - IZR (Zfloor qy) in
                     let lx := qx - IZR (Zfloor qx) in
                     let y0 := lower_index qy in
                     let y1 := upper_index (height s) qy in
                     let x0 := lower_index qx in
                     let x1 := upper_index (width s) qx in
                     let top := elt x b y0 x0 c + (elt x b y0 x1 c - elt x b y0 x0 c) * lx in
                     let bottom := elt x b y1 x0 c + (elt x b y1 x1 c - elt x b y1 x0 c) * lx in
                     top + (bottom - top) * ly
                 end))
  | _ => None
  end.

Definition reference : Framework :=
  {| conv2d := reference_conv2d;
     average_pooling2d := reference_average_pooling2d;
     up_sampling2d := reference_up_sampling2d |}.

(** ** Concrete tensors *)

(** [tf.fill(s, v)]. *)
Definition fill (s : shape) (v : R) : tensor := Tensor s (fun _ _ _ _ => v).

Definition zero_variables : variables :=
  {| kernel := fun _ _ _ _ => 0; bias := fun _ => 0 |}.

Definition zero_encoder : Encoder.weights := Encoder.Weights zero_variables zero_variables.
Definition zero_decoder : Decoder.weights := Decoder.Weights zero_variables zero_variables.

Definition zero_weights : UNet.weights :=
  UNet.Weights zero_variables zero_variables
    zero_encoder zero_encoder zero_encoder zero_encoder zero_encoder
    zero_decoder zero_decoder zero_decoder zero_decoder zero_decoder
    zero_variables.

(** A two by two example: constant frames, still flows, half-visible maps
    and the middle time index. *)
Definition example_frames : tensor := fill (Shape 1 2 2 3) 1.
Definition example_flow : tensor := fill (Shape 1 2 2 2) 0.
Definition example_visibility : tensor := fill (Shape 1 2 2 1) (1 / 2).
Definition example_time : tensor := fill (Shape 1 1 1 1) (1 / 2).

(** A 32 by 32 example, the smallest extent the five poolings of the UNet
    accept. *)
Definition example_frames32 : tensor := fill (Shape 1 32 32 3) 1.
Definition example_flow32 : tensor := fill (Shape 1 32 32 2) 0.

(** Extents that are not multiples of 32. *)
Definition example_frames45 : tensor := fill (Shape 1 45 37 3) 1.

(** A skip tensor one row and one column larger than twice the frames. *)
Definition example_skip : tensor := fill (Shape 1 5 5 4) 1.

(** A flow of half a pixel in both directions. *)
Definition example_half_flow : tensor := fill (Shape 1 2 2 2) (1 / 2).

(** A visibility map that hides every pixel. *)
Definition example_hidden : tensor := fill (Shape 1 2 2 1) 0.

(** The start of the time interval. *)
Definition example_time0 : tensor := fill (Shape 1 1 1 1) 0.

(** The row or column nearest to [z] among the [size] of the image. *)
Definition nearest_index (size : nat) (z : Z) : nat :=
  Z.to_nat (Z.min (Z.max 0 z) (Z.of_nat size - 1)).

(** A picture whose pixels differ, and a flow of one pixel down. *)
Definition example_ramp : tensor :=
  Tensor (Shape 1 3 3 1) (fun _ i j _ => INR (3 * i + j)).
Definition example_down : tensor :=
  Tensor (Shape 1 3 3 2) (fun _ _ _ k => if (k =? 0)%nat then 1 else 0).

(** A tensor without rows or columns, what the first decoder of the UNet
    receives for an input of extent 31. *)
Definition example_empty : tensor := fill (Shape 1 0 0 4) 1.

(** ** The visibility maps in float32 *)

(** IEEE binary32: 24 bits of precision, exponents below 128, every
    operation rounded to the nearest float, ties to even. *)
Module Float32.

Definition prec : Z := 24.
Definition emax : Z := 128.
Definition t : Type := spec_float.
Definition add : t -> t -> t := SFadd prec emax.
Definition sub : t -> t -> t := SFsub prec emax.
Definition div : t -> t -> t := SFdiv prec emax.
Definition one : t := SFone prec emax.
Definition zero : t := S754_zero false.
Definition infinity : t := S754_infinity false.

End Float32.

(** Lines 179 and 180 on one entry of the logit, as float32 computes them:
    [tf.keras.activations.sigmoid] is [1 / (1 + exp(-logit))], and [e] is the
    float32 that the exponential returns for [-logit]. *)
Definition visibility32 (e : Float32.t) : Float32.t * Float32.t :=
  let v_t0 := Float32.div Float32.one (Float32.add Float32.one e) in
  let v_t1 := Float32.sub Float32.one v_t0 in
  (v_t0, v_t1).

(** The float32 nearest to [exp(-100)], which is about [3.72e-44]:
    [27 * 2^-149]. *)
Definition exp32_minus_100 : Float32.t := S754_finite false 27 (-149).

(** [exp(100)], about [2.69e43], is above the largest float32. *)
Definition exp32_plus_100 : Float32.t := Float32.infinity.

(** The float32 numbers from 0 to [1024 * 2^-149], about [1.4e-42]: what an
    exponential that is not correctly rounded, or that flushes small numbers
    to zero, can return for -100. *)
Definition near_exp32_minus_100 : list Float32.t :=
  Float32.zero ::
  map (fun m => S754_finite false (Pos.of_nat m) (-149)) (seq 1 1024).

(** The powers of two from [2^-149] to [2^127], and infinity. *)
Definition powers_of_two32 : list Float32.t :=
  Float32.infinity :: map (fun k => S754_finite false 1 (Z.of_nat k - 149)) (seq 0 277).

(** The bounds and the sum of the two maps, on one entry. *)
Definition complementary32 (e : Float32.t) : bool :=
  let '(v_t0, v_t1) := visibility32 e in
  SFleb Float32.zero v_t0 && SFleb v_t0 Float32.one &&
  SFleb Float32.zero v_t1 && SFleb v_t1 Float32.one &&
  SFeqb (Float32.add v_t0 v_t1) Float32.one.

(** * Properties *)

(** ** Broadcasting *)

Lemma bind_Some {A B : Type} (m : option A) (k : A -> option B) (r : B) :
  bind m k = Some r -> exists a, m = Some a /\ k a = Some r.
Proof.
  destruct m as [a|]; simpl; intros H; [exists a; auto | discriminate].
Qed.

Lemma bidx_lt (d i : nat) : (i < d)%nat -> bidx d i = i.
Proof.
  unfold bidx. intros H. destruct (Nat.eqb_spec d 1); [lia | reflexivity].
Qed.

Lemma bcast_dim_refl (a : nat) : bcast_dim a a = Some a.
Proof. unfold bcast_dim. now rewrite Nat.eqb_refl. Qed.

Lemma bcast_dim_1_l (a : nat) : bcast_dim 1 a = Some a.
Proof.
  unfold bcast_dim. destruct (Nat.eqb_spec 1 a); [now subst | reflexivity].
Qed.

Lemma bcast_dim_1_r (a : nat) : bcast_dim a 1 = Some a.
Proof.
  unfold bcast_dim. destruct (Nat.eqb_spec a 1); [reflexivity |].
  destruct (Nat.eqb_spec a 1); [lia | reflexivity].
Qed.

(** Reading the broadcast of [x] through an index already reduced for a
    shape that [x] broadcasts to changes nothing. *)
Lemma bidx_bcast (a b d i : nat) :
  bcast_dim a b = Some d -> bidx a (bidx d i) = bidx a i /\ bidx b (bidx d i) = bidx b i.
Proof.
  unfold bcast_dim, bidx.
  destruct (Nat.eqb_spec a b) as [->|Hab].
  - intros [= <-]. destruct (Nat.eqb_spec b 1); auto.
  - destruct (Nat.eqb_spec a 1) as [->|Ha].
    + intros [= <-]. destruct (Nat.eqb_spec b 1); [lia | auto].
    + destruct (Nat.eqb_spec b 1) as [->|Hb]; [|discriminate].
      intros [= <-]. destruct (Nat.eqb_spec a 1); [lia | auto].
Qed.

Lemma bidx_bcast_lt (a b d i : nat) :
  bcast_dim a b = Some d -> (i < d)%nat -> (bidx a i < a)%nat /\ (bidx b i < b)%nat.
Proof.
  unfold bcast_dim, bidx.
  destruct (Nat.eqb_spec a b) as [->|Hab].
  - intros [= <-] Hi. destruct (Nat.eqb_spec b 1); lia.
  - destruct (Nat.eqb_spec a 1) as [->|Ha].
    + intros [= <-] Hi. destruct (Nat.eqb_spec b 1); lia.
    + destruct (Nat.eqb_spec b 1) as [->|Hb]; [|discriminate].
      intros [= <-] Hi. simpl. lia.
Qed.

Lemma bcast_shape_Some (s1 s2 s : shape) :
  bcast_shape s1 s2 = Some s ->
  bcast_dim (batch s1) (batch s2) = Some (batch s) /\
  bcast_dim (height s1) (height s2) = Some (height s) /\
  bcast_dim (width s1) (width s2) = Some (width s) /\
  bcast_dim (channels s1) (channels s2) = Some (channels s).
Proof.
  unfold bcast_shape. intros H.
  apply bind_Some in H as (b & Hb & H). apply bind_Some in H as (h & Hh & H).
  apply bind_Some in H as (w & Hw & H). apply bind_Some in H as (c & Hc & H).
  injection H as <-. simpl. auto.
Qed.

Lemma tzip_Some (op : R -> R -> R) (x y z : tensor) :
  tzip op x y = Some z ->
  bcast_shape (tshape x) (tshape y) = Some (tshape z) /\
  forall b i j c, elt z b i j c = op (belt x b i j c) (belt y b i j c).
Proof.
  unfold tzip. intros H. apply bind_Some in H as (s & Hs & H).
  injection H as <-. simpl. auto.
Qed.

(** The entries of [x op y], read through broadcasting, are the entries of
    [x] and [y] read through broadcasting. *)
Lemma belt_tzip (op : R -> R -> R) (x y z : tensor) :
  tzip op x y = Some z ->
  forall b i j c, belt z b i j c = op (belt x b i j c) (belt y b i j c).
Proof.
  intros H. destruct (tzip_Some _ _ _ _ H) as [Hs He].
  apply bcast_shape_Some in Hs as (Hb & Hh & Hw & Hc).
  intros b i j c. unfold belt at 1. rewrite He. unfold belt.
  destruct (bidx_bcast _ _ _ b Hb) as [-> ->].
  destruct (bidx_bcast _ _ _ i Hh) as [-> ->].
  destruct (bidx_bcast _ _ _ j Hw) as [-> ->].
  destruct (bidx_bcast _ _ _ c Hc) as [-> ->].
  reflexivity.
Qed.

Lemma belt_tmap (f : R -> R) (x : tensor) (b i j c : nat) :
  belt (tmap f x) b i j c = f (belt x b i j c).
Proof. reflexivity. Qed.

Lemma belt_in_range (x : tensor) (b i j c : nat) :
  in_range (tshape x) b i j c -> belt x b i j c = elt x b i j c.
Proof.
  intros (Hb & Hi & Hj & Hc). unfold belt.
  now rewrite !bidx_lt by assumption.
Qed.

(** An entry of the broadcast shape is read inside both operands. *)
Lemma bcast_in_range (s1 s2 s : shape) (b i j c : nat) :
  bcast_shape s1 s2 = Some s -> in_range s b i j c ->
  in_range s1 (bidx (batch s1) b) (bidx (height s1) i) (bidx (width s1) j)
              (bidx (channels s1) c) /\
  in_range s2 (bidx (batch s2) b) (bidx (height s2) i) (bidx (width s2) j)
              (bidx (channels s2) c).
Proof.
  intros Hs (Hb & Hi & Hj & Hc).
  apply bcast_shape_Some in Hs as (Eb & Eh & Ew & Ec).
  destruct (bidx_bcast_lt _ _ _ _ Eb Hb), (bidx_bcast_lt _ _ _ _ Eh Hi),
    (bidx_bcast_lt _ _ _ _ Ew Hj), (bidx_bcast_lt _ _ _ _ Ec Hc).
  unfold in_range. auto 10.
Qed.

(** ** The intermediate flows of [OpticalFlow.call] *)

(** What lines 158 to 163 compute, entry by entry: [f_t0_t] is
    [-(1-t) t f_01 + t^2 f_10] and [f_t1_t] is
    [(1-t)^2 f_01 + t (1-t) f_10]; the coefficient [t0_value] is already
    negative when it is subtracted. *)
Lemma intermediate_flows_values (f_01 f_10 t f_t0_t f_t1_t : tensor) :
  OpticalFlow.intermediate_flows f_01 f_10 t = Some (f_t0_t, f_t1_t) ->
  forall b i j c,
    elt f_t0_t b i j c =
      - (1 - belt t b i j c) * belt t b i j c * belt f_01 b i j c
      + belt t b i j c * belt t b i j c * belt f_10 b i j c /\
    elt f_t1_t b i j c =
      (1 - belt t b i j c) * (1 - belt t b i j c) * belt f_01 b i j c
      + belt t b i j c * (1 - belt t b i j c) * belt f_10 b i j c.
Proof.
  unfold OpticalFlow.intermediate_flows, tf_mul, tf_add, tf_sub, rsub, rmul.
  intros H.
  apply bind_Some in H as (t0 & H0 & H). apply bind_Some in H as (t1 & H1 & H).
  apply bind_Some in H as (a & Ha & H). apply bind_Some in H as (b' & Hb & H).
  apply bind_Some in H as (f0 & Hf0 & H). apply bind_Some in H as (t1' & H1' & H).
  apply bind_Some in H as (a' & Ha' & H). apply bind_Some in H as (b'' & Hb' & H).
  apply bind_Some in H as (f1 & Hf1 & H). injection H as <- <-.
  intros b i j c.
  destruct (tzip_Some _ _ _ _ Hf0) as [_ ->]. destruct (tzip_Some _ _ _ _ Hf1) as [_ ->].
  rewrite (belt_tzip _ _ _ _ Ha), (belt_tzip _ _ _ _ Hb), (belt_tzip _ _ _ _ Ha'),
    (belt_tzip _ _ _ _ Hb'), (belt_tzip _ _ _ _ H0), (belt_tzip _ _ _ _ H1),
    (belt_tzip _ _ _ _ H1'), !belt_tmap.
  split; ring.
Qed.

(** C1. [OpticalFlow.call] does not compute the second flow-interpolation
    equation: for [t = 1/2], [f_01 = 0] and [f_10 = 1] the intermediate flow
    [f_t1_t] is [1/4], where [(1-t)^2 f_01 - t (1-t) f_10] is [-1/4]. *)
Theorem intermediate_flows_sign :
  exists f_t0_t f_t1_t,
    OpticalFlow.intermediate_flows
      (fill (Shape 1 2 2 2) 0) (fill (Shape 1 2 2 2) 1) (fill (Shape 1 1 1 1) (1 / 2))
    = Some (f_t0_t, f_t1_t) /\
    elt f_t0_t 0 0 0 0 = - (1 - 1 / 2) * (1 / 2) * 0 + (1 / 2) ^ 2 * 1 /\
    elt f_t1_t 0 0 0 0 = 1 / 4 /\
    elt f_t1_t 0 0 0 0 <> (1 - 1 / 2) ^ 2 * 0 - (1 / 2) * (1 - 1 / 2) * 1.
Proof.
  eexists. eexists. split; [reflexivity |].
  cbn -[Rmult Rplus Rminus Rdiv Ropp IZR pow].
  repeat split; lra.
Qed.

(** ** The denominator of [Output.call] *)

(** An entry of [x op y] combines one entry of [x] and one entry of [y]. *)
Lemma tzip_entry (op : R -> R -> R) (x y z : tensor) (b i j c : nat) :
  tzip op x y = Some z -> in_range (tshape z) b i j c ->
  exists bx ix jx cx by_ iy jy cy,
    in_range (tshape x) bx ix jx cx /\ in_range (tshape y) by_ iy jy cy /\
    elt z b i j c = op (elt x bx ix jx cx) (elt y by_ iy jy cy).
Proof.
  intros H Hr. destruct (tzip_Some _ _ _ _ H) as [Hs He].
  destruct (bcast_in_range _ _ _ _ _ _ _ Hs Hr) as [Hx Hy].
  do 8 eexists. split; [exact Hx |]. split; [exact Hy |]. apply He.
Qed.

Lemma denominator_entries (v_t0 v_t1 t z : tensor) :
  Output.denominator v_t0 v_t1 t = Some z ->
  (forall b i j c, in_range (tshape t) b i j c -> 0 <= elt t b i j c <= 1) ->
  (forall b i j c, in_range (tshape v_t0) b i j c -> 0 <= elt v_t0 b i j c) ->
  (forall b i j c, in_range (tshape v_t1) b i j c -> 0 <= elt v_t1 b i j c) ->
  forall b i j c, in_range (tshape z) b i j c -> 1e-12 <= elt z b i j c.
Proof.
  unfold Output.denominator, tf_mul, tf_add, radd, rsub.
  intros H Ht H0 H1.
  apply bind_Some in H as (p & Hp & H). apply bind_Some in H as (q & Hq & H).
  apply bind_Some in H as (s & Hs & H). injection H as <-.
  intros b i j c Hr. simpl in Hr |- *.
  destruct (tzip_entry _ _ _ _ _ _ _ _ Hs Hr)
    as (b1 & i1 & j1 & c1 & b2 & i2 & j2 & c2 & R1 & R2 & ->).
  destruct (tzip_entry _ _ _ _ _ _ _ _ Hp R1)
    as (b3 & i3 & j3 & c3 & b4 & i4 & j4 & c4 & R3 & R4 & ->).
  destruct (tzip_entry _ _ _ _ _ _ _ _ Hq R2)
    as (b5 & i5 & j5 & c5 & b6 & i6 & j6 & c6 & R5 & R6 & ->).
  simpl in R3 |- *.
  specialize (Ht _ _ _ _ R3) as Ht3. specialize (Ht _ _ _ _ R5) as Ht5.
  specialize (H0 _ _ _ _ R4). specialize (H1 _ _ _ _ R6).
  assert (0 <= (1 - elt t b3 i3 j3 c3) * elt v_t0 b4 i4 j4 c4)
    by (apply Rmult_le_pos; lra).
  assert (0 <= elt t b5 i5 j5 c5 * elt v_t1 b6 i6 j6 c6)
    by (apply Rmult_le_pos; lra).
  lra.
Qed.

(** C10. In [Output.call], when every entry of [t] lies in [[0, 1]] and every
    entry of the visibility maps is non-negative, every entry of the
    denominator [z] is strictly positive, and so is the entry of [z] by which
    each entry of the predicted frame is divided. *)
Theorem Output_denominator_positive
  (self : Output.t)
  (frames_0 f_t0 v_t0 frames_1 f_t1 v_t1 t frame_pred : tensor) :
  Output.call self (frames_0, f_t0, v_t0, frames_1, f_t1, v_t1, t) = Some frame_pred ->
  (forall b i j c, in_range (tshape t) b i j c -> 0 <= elt t b i j c <= 1) ->
  (forall b i j c, in_range (tshape v_t0) b i j c -> 0 <= elt v_t0 b i j c) ->
  (forall b i j c, in_range (tshape v_t1) b i j c -> 0 <= elt v_t1 b i j c) ->
  exists z num,
    Output.denominator v_t0 v_t1 t = Some z /\
    (forall b i j c, in_range (tshape z) b i j c -> 0 < elt z b i j c) /\
    forall b i j c, in_range (tshape frame_pred) b i j c ->
      elt frame_pred b i j c = belt num b i j c / belt z b i j c /\
      0 < belt z b i j c.
Proof.
  intros H Ht H0 H1. unfold Output.call in H.
  apply bind_Some in H as (g0 & _ & H). apply bind_Some in H as (g1 & _ & H).
  apply bind_Some in H as (z & Hz & H). apply bind_Some in H as (num & _ & H).
  apply bind_Some in H as (out & Hd & H). injection H as <-.
  exists z, num. split; [exact Hz |].
  pose proof (denominator_entries _ _ _ _ Hz Ht H0 H1) as Hpos.
  split.
  - intros b i j c Hr. specialize (Hpos _ _ _ _ Hr). lra.
  - intros b i j c Hr. unfold tf_divide in Hd.
    destruct (tzip_Some _ _ _ _ Hd) as [Hs He]. split; [apply He |].
    destruct (bcast_in_range _ _ _ _ _ _ _ Hs Hr) as [_ Hrz].
    specialize (Hpos _ _ _ _ Hrz). unfold belt. lra.
Qed.

Lemma Output_denominator_positive_witness :
  exists frame_pred z,
    Output.call Output.build
      (example_frames, example_flow, example_visibility,
       example_frames, example_flow, example_visibility, example_time)
    = Some frame_pred /\
    Output.denominator example_visibility example_visibility example_time = Some z /\
    0 < belt z 0 0 0 0.
Proof.
  edestruct (Output_denominator_positive Output.build
               example_frames example_flow example_visibility
               example_frames example_flow example_visibility example_time)
    as (z & num & Hz & _ & Hdiv).
  - reflexivity.
  - intros b i j c _. simpl. lra.
  - intros b i j c _. simpl. lra.
  - intros b i j c _. simpl. lra.
  - eexists. exists z. split; [reflexivity |]. split; [exact Hz |].
    apply Hdiv. simpl. unfold in_range. simpl. lia.
Defined.

(** ** The visibility maps of [OpticalFlow.call] *)



(** In float32 the two maps still lie between 0 and 1 and sum to 1, at the
    two saturated entries and for every power of two that the exponential
    can return. *)
Lemma visibility32_complementary :
  complementary32 exp32_minus_100 = true /\
  complementary32 exp32_plus_100 = true /\
  forallb complementary32 near_exp32_minus_100 = true /\
  forallb complementary32 powers_of_two32 = true.
Proof. repeat split; vm_compute; reflexivity. Qed.


(** ** Shapes *)

(** The reference engine meets the shape contract. *)
Lemma reference_shapes : FrameworkShapes reference.
Proof.
  split.
  - intros l x Hp Hs _ _ _. simpl. unfold reference_conv2d. rewrite Hp, Hs.
    eexists. split; reflexivity.
  - intros x Hh Hw. cbn [average_pooling2d reference].
    unfold reference_average_pooling2d, AveragePooling2D.default.
    apply Nat.leb_le in Hh, Hw. rewrite Hh, Hw.
    eexists. split; reflexivity.
  - intros m x Hh Hw. cbn [up_sampling2d reference]. unfold reference_up_sampling2d.
    destruct (Nat.eqb_spec (height (tshape x)) 0); [lia |].
    destruct (Nat.eqb_spec (width (tshape x)) 0); [lia |].
    eexists. split; reflexivity.
Qed.

Lemma reference_errors : FrameworkErrors reference.
Proof.
  split. intros [[[| [| [| ?]]] [| [| [| ?]]]] m] x Hx; try reflexivity.
  cbn [up_sampling2d reference]. unfold reference_up_sampling2d.
  destruct Hx as [-> | ->]; [reflexivity |].
  now rewrite Nat.eqb_refl, orb_true_r.
Qed.

Lemma tf_pad_trailing (x : tensor) (x_delta y_delta : Z) :
  (0 <= x_delta)%Z -> (0 <= y_delta)%Z ->
  exists p,
    tf_pad x [(0, 0); (0, x_delta); (0, y_delta); (0, 0)]%Z = Some p /\
    tshape p = Shape (batch (tshape x)) (height (tshape x) + Z.to_nat x_delta)
                     (width (tshape x) + Z.to_nat y_delta) (channels (tshape x)) /\
    forall b i j c, in_range (tshape p) b i j c ->
      elt p b i j c =
        if (i <? height (tshape x))%nat && (j <? width (tshape x))%nat
        then elt x b i j c else 0.
Proof.
  intros Hx Hy. unfold tf_pad.
  apply Z.leb_le in Hx as Hx'. apply Z.leb_le in Hy as Hy'.
  rewrite Hx', Hy'. simpl. eexists. split; [reflexivity |]. simpl.
  split; [now rewrite !Nat.add_0_r |].
  intros b i j c (Hb & Hi & Hj & Hc). simpl in Hb, Hc.
  rewrite !Nat.sub_0_r.
  destruct (Nat.ltb_spec b (batch (tshape x))); [| lia].
  destruct (Nat.ltb_spec c (channels (tshape x))); [| lia].
  simpl. now rewrite !andb_true_r.
Qed.

Lemma concat2_Some (x y : tensor) :
  batch (tshape x) = batch (tshape y) ->
  height (tshape x) = height (tshape y) ->
  width (tshape x) = width (tshape y) ->
  exists r,
    concat2 x y = Some r /\
    tshape r = Shape (batch (tshape x)) (height (tshape x)) (width (tshape x))
                     (channels (tshape x) + channels (tshape y)) /\
    forall b i j c,
      elt r b i j c =
        if (c <? channels (tshape x))%nat then elt x b i j c
        else elt y b i j (c - channels (tshape x)).
Proof.
  intros Hb Hh Hw. unfold concat2. rewrite Hb, Hh, Hw, !Nat.eqb_refl. simpl.
  eexists. split; [reflexivity |]. simpl. split; [now rewrite <- Hb, <- Hh, <- Hw | auto].
Qed.

Lemma half_spec (n : nat) : (2 * (n / 2) <= n /\ n < 2 * (n / 2) + 2)%nat.
Proof.
  pose proof (Nat.div_mod_eq n 2). pose proof (Nat.mod_upper_bound n 2). lia.
Qed.

(** Brings the bounds of every half that occurs in the goal. *)
Ltac halves :=
  repeat match goal with
    | |- context [Nat.div ?n 2] =>
        lazymatch goal with
        | _ : (2 * (n / 2) <= n /\ _)%nat |- _ => fail
        | _ => pose proof (half_spec n)
        end
    end.

Lemma LeakyReLU_call_shape (l : LeakyReLU.t) (x : tensor) :
  tshape (LeakyReLU.call l x) = tshape x.
Proof. reflexivity. Qed.

Section Shapes.
Context {F : Framework} {FS : FrameworkShapes F}.

(** An encoder floor-halves the two spatial extents. *)
Lemma Encoder_call_shape (filters kernel_size : nat) (w : Encoder.weights) (x : tensor) :
  (1 <= kernel_size)%nat ->
  (2 <= height (tshape x))%nat -> (2 <= width (tshape x))%nat ->
  exists y,
    Encoder.call (Encoder.build filters kernel_size w) x = Some y /\
    tshape y = Shape (batch (tshape x)) (height (tshape x) / 2)
                     (width (tshape x) / 2) filters.
Proof.
  intros Hk Hh Hw. unfold Encoder.call, Encoder.build.
  cbn [Encoder.avg_pool Encoder.conv1 Encoder.conv2 Encoder.leaky_relu].
  destruct (average_pooling2d_shape x Hh Hw) as (p & -> & Sp). cbn [bind].
  destruct (conv2d_shape (Conv2D.new filters kernel_size 1 same (Encoder.w_conv1 w)) p
              eq_refl eq_refl Hk) as (c1 & -> & S1);
    [rewrite Sp; cbn [height]; halves; lia | rewrite Sp; cbn [width]; halves; lia |].
  cbn [bind].
  rewrite Sp in S1. cbn [batch height width Conv2D.filters] in S1.
  destruct (conv2d_shape (Conv2D.new filters kernel_size 1 same (Encoder.w_conv2 w))
              (LeakyReLU.call (LeakyReLU.new 0.1) c1) eq_refl eq_refl Hk)
    as (c2 & -> & S2);
    [rewrite LeakyReLU_call_shape, S1; cbn [height]; halves; lia
    | rewrite LeakyReLU_call_shape, S1; cbn [width]; halves; lia |].
  cbn [bind].
  eexists. split; [reflexivity |].
  rewrite LeakyReLU_call_shape, S2, LeakyReLU_call_shape, S1. reflexivity.
Qed.

(** A decoder doubles the extents of a non-empty [x] and pads them to those
    of [skip]. *)
Lemma Decoder_call_shape (filters : nat) (w : Decoder.weights) (x skip : tensor) :
  (1 <= height (tshape x))%nat -> (1 <= width (tshape x))%nat ->
  batch (tshape x) = batch (tshape skip) ->
  (2 * height (tshape x) <= height (tshape skip))%nat ->
  (2 * width (tshape x) <= width (tshape skip))%nat ->
  exists y,
    Decoder.call (Decoder.build filters w) (x, skip) = Some y /\
    tshape y = Shape (batch (tshape skip)) (height (tshape skip))
                     (width (tshape skip)) filters.
Proof.
  intros Hx1 Hx2 Hb Hh Hw. unfold Decoder.call, Decoder.build.
  cbn [Decoder.interpolation Decoder.conv1 Decoder.conv2 Decoder.leaky_relu].
  destruct (up_sampling2d_shape bilinear x Hx1 Hx2) as (u & -> & Su). cbn [bind].
  destruct (conv2d_shape (Conv2D.new filters 3 1 same (Decoder.w_conv1 w)) u
              eq_refl eq_refl) as (c1 & -> & S1);
    [simpl; lia | rewrite Su; cbn [height]; lia | rewrite Su; cbn [width]; lia |].
  cbn [bind].
  set (r := LeakyReLU.call (LeakyReLU.new 0.1) c1).
  assert (Sr : tshape r = Shape (batch (tshape x)) (2 * height (tshape x))
                                (2 * width (tshape x)) filters).
  { unfold r. rewrite LeakyReLU_call_shape, S1, Su. reflexivity. }
  unfold Decoder.paddings.
  destruct (tf_pad_trailing r
              (Z.of_nat (height (tshape skip)) - Z.of_nat (height (tshape r)))
              (Z.of_nat (width (tshape skip)) - Z.of_nat (width (tshape r))))
    as (p & -> & Sp & _);
    [rewrite Sr; cbn [height]; lia | rewrite Sr; cbn [width]; lia |].
  cbn [bind tf_concat3 fold_left].
  assert (Sp' : tshape p = Shape (batch (tshape skip)) (height (tshape skip))
                                 (width (tshape skip)) filters).
  { rewrite Sp, Sr. cbn [batch height width channels]. f_equal; lia. }
  destruct (concat2_Some p skip) as (cat & -> & Sc & _);
    [rewrite Sp'; reflexivity .. |]. cbn [bind].
  destruct (conv2d_shape (Conv2D.new filters 3 1 same (Decoder.w_conv2 w)) cat
              eq_refl eq_refl) as (c2 & -> & S2);
    [simpl; lia | rewrite Sc, Sp'; cbn [height]; lia
    | rewrite Sc, Sp'; cbn [width]; lia |].
  cbn [bind].
  eexists. split; [reflexivity |].
  rewrite LeakyReLU_call_shape, S2, Sc, Sp'. reflexivity.
Qed.

End Shapes.

Section UNetShape.
Context {F : Framework} {FS : FrameworkShapes F}.

(** The run of [UNet.call] on an input of extents at least 32: the tensors
    of every stage and their shapes. *)
Lemma UNet_call_trace (out_filters : nat) (w : UNet.weights) (x : tensor)
  (B H W C : nat) :
  tshape x = Shape B H W C -> (32 <= H)%nat -> (32 <= W)%nat ->
  exists c1 c2 skip1 skip2 skip3 skip4 skip5 x_enc d1 d2 d3 d4 d5 c3 y,
    conv2d (Conv2D.new 32 7 1 same (UNet.w_conv1 w)) x = Some c1 /\
    conv2d (Conv2D.new 32 7 1 same (UNet.w_conv2 w))
      (LeakyReLU.call (LeakyReLU.new 0.1) c1) = Some c2 /\
    skip1 = LeakyReLU.call (LeakyReLU.new 0.1) c2 /\
    Encoder.call (Encoder.build 64 5 (UNet.w_encoder1 w)) skip1 = Some skip2 /\
    Encoder.call (Encoder.build 128 5 (UNet.w_encoder2 w)) skip2 = Some skip3 /\
    Encoder.call (Encoder.build 256 3 (UNet.w_encoder3 w)) skip3 = Some skip4 /\
    Encoder.call (Encoder.build 512 3 (UNet.w_encoder4 w)) skip4 = Some skip5 /\
    Encoder.call (Encoder.build 512 3 (UNet.w_encoder5 w)) skip5 = Some x_enc /\
    Decoder.call (Decoder.build 512 (UNet.w_decoder1 w)) (x_enc, skip5) = Some d1 /\
    Decoder.call (Decoder.build 256 (UNet.w_decoder2 w)) (d1, skip4) = Some d2 /\
    Decoder.call (Decoder.build 128 (UNet.w_decoder3 w)) (d2, skip3) = Some d3 /\
    Decoder.call (Decoder.build 64 (UNet.w_decoder4 w)) (d3, skip2) = Some d4 /\
    Decoder.call (Decoder.build 32 (UNet.w_decoder5 w)) (d4, skip1) = Some d5 /\
    conv2d (Conv2D.new out_filters 3 1 same (UNet.w_conv3 w)) d5 = Some c3 /\
    y = LeakyReLU.call (LeakyReLU.new 0.1) c3 /\
    UNet.call (UNet.build out_filters w) x = Some y /\
    tshape skip1 = Shape B H W 32 /\
    tshape skip2 = Shape B (H / 2) (W / 2) 64 /\
    tshape skip3 = Shape B (H / 2 / 2) (W / 2 / 2) 128 /\
    tshape skip4 = Shape B (H / 2 / 2 / 2) (W / 2 / 2 / 2) 256 /\
    tshape skip5 = Shape B (H / 2 / 2 / 2 / 2) (W / 2 / 2 / 2 / 2) 512 /\
    tshape x_enc = Shape B (H / 2 / 2 / 2 / 2 / 2) (W / 2 / 2 / 2 / 2 / 2) 512 /\
    tshape d1 = Shape B (H / 2 / 2 / 2 / 2) (W / 2 / 2 / 2 / 2) 512 /\
    tshape d2 = Shape B (H / 2 / 2 / 2) (W / 2 / 2 / 2) 256 /\
    tshape d3 = Shape B (H / 2 / 2) (W / 2 / 2) 128 /\
    tshape d4 = Shape B (H / 2) (W / 2) 64 /\
    tshape d5 = Shape B H W 32 /\
    tshape y = Shape B H W out_filters.
Proof.
  intros Sx Hh Hw.
  destruct (conv2d_shape (Conv2D.new 32 7 1 same (UNet.w_conv1 w)) x eq_refl eq_refl)
    as (c1 & Hc1 & Sc1);
    [simpl; lia | rewrite Sx; cbn [height]; lia | rewrite Sx; cbn [width]; lia |].
  rewrite Sx in Sc1. cbn [batch height width Conv2D.filters] in Sc1.
  destruct (conv2d_shape (Conv2D.new 32 7 1 same (UNet.w_conv2 w))
              (LeakyReLU.call (LeakyReLU.new 0.1) c1) eq_refl eq_refl)
    as (c2 & Hc2 & Sc2);
    [simpl; lia | rewrite LeakyReLU_call_shape, Sc1; cbn [height]; lia
    | rewrite LeakyReLU_call_shape, Sc1; cbn [width]; lia |].
  rewrite LeakyReLU_call_shape, Sc1 in Sc2. cbn [batch height width Conv2D.filters] in Sc2.
  set (skip1 := LeakyReLU.call (LeakyReLU.new 0.1) c2) in *.
  assert (S1 : tshape skip1 = Shape B H W 32) by exact Sc2.
  destruct (Encoder_call_shape 64 5 (UNet.w_encoder1 w) skip1)
    as (skip2 & E1 & S2);
    [lia | rewrite S1; cbn [height]; lia | rewrite S1; cbn [width]; lia |].
  rewrite S1 in S2. cbn [batch height width] in S2.
  destruct (Encoder_call_shape 128 5 (UNet.w_encoder2 w) skip2)
    as (skip3 & E2 & S3);
    [lia | rewrite S2; cbn [height]; halves; lia
    | rewrite S2; cbn [width]; halves; lia |].
  rewrite S2 in S3. cbn [batch height width] in S3.
  destruct (Encoder_call_shape 256 3 (UNet.w_encoder3 w) skip3)
    as (skip4 & E3 & S4);
    [lia | rewrite S3; cbn [height]; halves; lia
    | rewrite S3; cbn [width]; halves; lia |].
  rewrite S3 in S4. cbn [batch height width] in S4.
  destruct (Encoder_call_shape 512 3 (UNet.w_encoder4 w) skip4)
    as (skip5 & E4 & S5);
    [lia | rewrite S4; cbn [height]; halves; lia
    | rewrite S4; cbn [width]; halves; lia |].
  rewrite S4 in S5. cbn [batch height width] in S5.
  destruct (Encoder_call_shape 512 3 (UNet.w_encoder5 w) skip5)
    as (x_enc & E5 & S6);
    [lia | rewrite S5; cbn [height]; halves; lia
    | rewrite S5; cbn [width]; halves; lia |].
  rewrite S5 in S6. cbn [batch height width] in S6.
  destruct (Decoder_call_shape 512 (UNet.w_decoder1 w) x_enc skip5)
    as (d1 & D1 & T1);
    [rewrite S6; cbn [height]; halves; lia | rewrite S6; cbn [width]; halves; lia
    | rewrite S6, S5; reflexivity | rewrite S6, S5; cbn [height]; halves; lia
    | rewrite S6, S5; cbn [width]; halves; lia |].
  rewrite S5 in T1. cbn [batch height width] in T1.
  destruct (Decoder_call_shape 256 (UNet.w_decoder2 w) d1 skip4)
    as (d2 & D2 & T2);
    [rewrite T1; cbn [height]; halves; lia | rewrite T1; cbn [width]; halves; lia
    | rewrite T1, S4; reflexivity | rewrite T1, S4; cbn [height]; halves; lia
    | rewrite T1, S4; cbn [width]; halves; lia |].
  rewrite S4 in T2. cbn [batch height width] in T2.
  destruct (Decoder_call_shape 128 (UNet.w_decoder3 w) d2 skip3)
    as (d3 & D3 & T3);
    [rewrite T2; cbn [height]; halves; lia | rewrite T2; cbn [width]; halves; lia
    | rewrite T2, S3; reflexivity | rewrite T2, S3; cbn [height]; halves; lia
    | rewrite T2, S3; cbn [width]; halves; lia |].
  rewrite S3 in T3. cbn [batch height width] in T3.
  destruct (Decoder_call_shape 64 (UNet.w_decoder4 w) d3 skip2)
    as (d4 & D4 & T4);
    [rewrite T3; cbn [height]; halves; lia | rewrite T3; cbn [width]; halves; lia
    | rewrite T3, S2; reflexivity | rewrite T3, S2; cbn [height]; halves; lia
    | rewrite T3, S2; cbn [width]; halves; lia |].
  rewrite S2 in T4. cbn [batch height width] in T4.
  destruct (Decoder_call_shape 32 (UNet.w_decoder5 w) d4 skip1)
    as (d5 & D5 & T5);
    [rewrite T4; cbn [height]; halves; lia | rewrite T4; cbn [width]; halves; lia
    | rewrite T4, S1; reflexivity | rewrite T4, S1; cbn [height]; halves; lia
    | rewrite T4, S1; cbn [width]; halves; lia |].
  rewrite S1 in T5. cbn [batch height width] in T5.
  destruct (conv2d_shape (Conv2D.new out_filters 3 1 same (UNet.w_conv3 w)) d5
              eq_refl eq_refl) as (c3 & Hc3 & Sc3);
    [simpl; lia | rewrite T5; cbn [height]; lia | rewrite T5; cbn [width]; lia |].
  rewrite T5 in Sc3. cbn [batch height width Conv2D.filters] in Sc3.
  exists c1, c2, skip1, skip2, skip3, skip4, skip5, x_enc, d1, d2, d3, d4, d5, c3,
    (LeakyReLU.call (LeakyReLU.new 0.1) c3).
  assert (Hcall : UNet.call (UNet.build out_filters w) x
                  = Some (LeakyReLU.call (LeakyReLU.new 0.1) c3)).
  { unfold UNet.call, UNet.build.
    cbn [UNet.conv1 UNet.conv2 UNet.conv3 UNet.leaky_relu
         UNet.encoder1 UNet.encoder2 UNet.encoder3 UNet.encoder4 UNet.encoder5
         UNet.decoder1 UNet.decoder2 UNet.decoder3 UNet.decoder4 UNet.decoder5].
    rewrite Hc1. cbn [bind]. rewrite Hc2. cbn [bind]. fold skip1.
    rewrite E1. cbn [bind]. rewrite E2. cbn [bind]. rewrite E3. cbn [bind].
    rewrite E4. cbn [bind]. rewrite E5. cbn [bind]. rewrite D1. cbn [bind].
    rewrite D2. cbn [bind]. rewrite D3. cbn [bind]. rewrite D4. cbn [bind].
    rewrite D5. cbn [bind]. rewrite Hc3. reflexivity. }
  repeat (split; [first [assumption | reflexivity] |]). exact Sc3.
Qed.

(** The UNet gives back the spatial extents of its input. *)
Lemma UNet_call_shape (out_filters : nat) (w : UNet.weights) (x : tensor) :
  (32 <= height (tshape x))%nat -> (32 <= width (tshape x))%nat ->
  exists y,
    UNet.call (UNet.build out_filters w) x = Some y /\
    tshape y = Shape (batch (tshape x)) (height (tshape x)) (width (tshape x))
                     out_filters.
Proof.
  intros Hh Hw.
  destruct (UNet_call_trace out_filters w x (batch (tshape x)) (height (tshape x))
              (width (tshape x)) (channels (tshape x)))
    as (c1 & c2 & skip1 & skip2 & skip3 & skip4 & skip5 & x_enc & d1 & d2 & d3 & d4
        & d5 & c3 & y & H);
    [now destruct (tshape x) | exact Hh | exact Hw |].
  exists y. split; apply H.
Qed.

End UNetShape.

(** C7. For an input of shape [[B, H, W, C]] with [H >= 32] and [W >= 32],
    [UNet.call] returns a tensor of shape [[B, H, W, out_filters]], whether or
    not [H] and [W] are multiples of 32.  In that run the five encoder stages
    floor-halve the spatial extents one after the other and each of the five
    decoder stages returns a tensor of the extents of its skip tensor, the
    last one of the extents of the input.  Any encoder floor-halves extents
    of at least 2, and any decoder brings a non-empty input of half the
    extents of its skip tensor to the extents of that tensor. *)
Theorem UNet_call_restores_shape
  {F : Framework} {FS : FrameworkShapes F}
  (out_filters : nat) (w : UNet.weights) (x : tensor) (B H W C : nat) :
  tshape x = Shape B H W C -> (32 <= H)%nat -> (32 <= W)%nat ->
  (exists y,
     UNet.call (UNet.build out_filters w) x = Some y /\
     tshape y = Shape B H W out_filters) /\
  (forall filters kernel_size we s,
     (1 <= kernel_size)%nat ->
     (2 <= height (tshape s))%nat -> (2 <= width (tshape s))%nat ->
     exists y,
       Encoder.call (Encoder.build filters kernel_size we) s = Some y /\
       tshape y = Shape (batch (tshape s)) (height (tshape s) / 2)
                        (width (tshape s) / 2) filters) /\
  (forall filters wd s skip,
     (1 <= height (tshape s))%nat -> (1 <= width (tshape s))%nat ->
     batch (tshape s) = batch (tshape skip) ->
     (height (tshape s) = height (tshape skip) / 2)%nat ->
     (width (tshape s) = width (tshape skip) / 2)%nat ->
     exists y,
       Decoder.call (Decoder.build filters wd) (s, skip) = Some y /\
       tshape y = Shape (batch (tshape skip)) (height (tshape skip))
                        (width (tshape skip)) filters) /\
  (exists skip1 skip2 skip3 skip4 skip5 x_enc d1 d2 d3 d4 d5 c3 y,
     Encoder.call (UNet.encoder1 (UNet.build out_filters w)) skip1 = Some skip2 /\
     Encoder.call (UNet.encoder2 (UNet.build out_filters w)) skip2 = Some skip3 /\
     Encoder.call (UNet.encoder3 (UNet.build out_filters w)) skip3 = Some skip4 /\
     Encoder.call (UNet.encoder4 (UNet.build out_filters w)) skip4 = Some skip5 /\
     Encoder.call (UNet.encoder5 (UNet.build out_filters w)) skip5 = Some x_enc /\
     Decoder.call (UNet.decoder1 (UNet.build out_filters w)) (x_enc, skip5) = Some d1 /\
     Decoder.call (UNet.decoder2 (UNet.build out_filters w)) (d1, skip4) = Some d2 /\
     Decoder.call (UNet.decoder3 (UNet.build out_filters w)) (d2, skip3) = Some d3 /\
     Decoder.call (UNet.decoder4 (UNet.build out_filters w)) (d3, skip2) = Some d4 /\
     Decoder.call (UNet.decoder5 (UNet.build out_filters w)) (d4, skip1) = Some d5 /\
     conv2d (UNet.conv3 (UNet.build out_filters w)) d5 = Some c3 /\
     y = LeakyReLU.call (UNet.leaky_relu (UNet.build out_filters w)) c3 /\
     UNet.call (UNet.build out_filters w) x = Some y /\
     tshape skip1 = Shape B H W 32 /\
     tshape skip2 = Shape B (H / 2) (W / 2) 64 /\
     tshape skip3 = Shape B (H / 2 / 2) (W / 2 / 2) 128 /\
     tshape skip4 = Shape B (H / 2 / 2 / 2) (W / 2 / 2 / 2) 256 /\
     tshape skip5 = Shape B (H / 2 / 2 / 2 / 2) (W / 2 / 2 / 2 / 2) 512 /\
     tshape x_enc = Shape B (H / 2 / 2 / 2 / 2 / 2) (W / 2 / 2 / 2 / 2 / 2) 512 /\
     tshape d1 = Shape B (height (tshape skip5)) (width (tshape skip5)) 512 /\
     tshape d2 = Shape B (height (tshape skip4)) (width (tshape skip4)) 256 /\
     tshape d3 = Shape B (height (tshape skip3)) (width (tshape skip3)) 128 /\
     tshape d4 = Shape B (height (tshape skip2)) (width (tshape skip2)) 64 /\
     tshape d5 = Shape B H W 32 /\
     tshape y = Shape B H W out_filters).
Proof.
  intros Sx Hh Hw. split; [| split; [| split]].
  - destruct (UNet_call_shape out_filters w x) as (y & Hy & Sy);
      [rewrite Sx; exact Hh | rewrite Sx; exact Hw |].
    exists y. split; [exact Hy |]. rewrite Sy, Sx. reflexivity.
  - intros filters kernel_size we s. apply Encoder_call_shape.
  - intros filters wd s skip Hs1 Hs2 Hb Hsh Hsw.
    apply Decoder_call_shape;
      [exact Hs1 | exact Hs2 | exact Hb | rewrite Hsh | rewrite Hsw]; halves; lia.
  - destruct (UNet_call_trace out_filters w x B H W C Sx Hh Hw)
      as (c1 & c2 & skip1 & skip2 & skip3 & skip4 & skip5 & x_enc & d1 & d2 & d3 & d4
          & d5 & c3 & y & _ & _ & _ & E1 & E2 & E3 & E4 & E5 & D1 & D2 & D3 & D4 & D5
          & Hc3 & Hy & Hcall & S1 & S2 & S3 & S4 & S5 & S6 & T1 & T2 & T3 & T4 & T5 & Sy).
    exists skip1, skip2, skip3, skip4, skip5, x_enc, d1, d2, d3, d4, d5, c3, y.
    rewrite S2, S3, S4, S5. cbn [height width].
    split; [exact E1 |]. split; [exact E2 |]. split; [exact E3 |].
    split; [exact E4 |]. split; [exact E5 |]. split; [exact D1 |].
    split; [exact D2 |]. split; [exact D3 |]. split; [exact D4 |].
    split; [exact D5 |]. split; [exact Hc3 |]. split; [exact Hy |].
    repeat (split; [first [assumption | reflexivity] |]). exact Sy.
Qed.

Lemma UNet_call_restores_shape_witness :
  exists y,
    UNet.call (F := reference) (UNet.build 5 zero_weights) example_frames45 = Some y /\
    tshape y = Shape 1 45 37 5.
Proof.
  assert (H32 : (32 <= 45)%nat) by lia.
  assert (W32 : (32 <= 37)%nat) by lia.
  exact (proj1 (UNet_call_restores_shape (FS := reference_shapes)
                  5 zero_weights example_frames45 1 45 37 3 eq_refl H32 W32)).
Defined.

(** ** Operands that broadcast to a given shape *)

Lemma broadcasts_to_refl (s : shape) : broadcasts_to s s.
Proof. unfold broadcasts_to. auto. Qed.

Lemma bcast_dim_to_l (a d : nat) : a = d \/ a = 1%nat -> bcast_dim a d = Some d.
Proof. intros [-> | ->]; [apply bcast_dim_refl | apply bcast_dim_1_l]. Qed.

Lemma bcast_dim_to_r (a d : nat) : a = d \/ a = 1%nat -> bcast_dim d a = Some d.
Proof. intros [-> | ->]; [apply bcast_dim_refl | apply bcast_dim_1_r]. Qed.

Lemma bcast_shape_to_l (s1 s : shape) :
  broadcasts_to s1 s -> bcast_shape s1 s = Some s.
Proof.
  intros (Hb & Hh & Hw & Hc). unfold bcast_shape.
  rewrite (bcast_dim_to_l _ _ Hb), (bcast_dim_to_l _ _ Hh),
    (bcast_dim_to_l _ _ Hw), (bcast_dim_to_l _ _ Hc).
  now destruct s.
Qed.

Lemma bcast_shape_to_r (s1 s : shape) :
  broadcasts_to s1 s -> bcast_shape s s1 = Some s.
Proof.
  intros (Hb & Hh & Hw & Hc). unfold bcast_shape.
  rewrite (bcast_dim_to_r _ _ Hb), (bcast_dim_to_r _ _ Hh),
    (bcast_dim_to_r _ _ Hw), (bcast_dim_to_r _ _ Hc).
  now destruct s.
Qed.

Lemma tzip_to_l (op : R -> R -> R) (x y : tensor) :
  broadcasts_to (tshape x) (tshape y) ->
  exists z, tzip op x y = Some z /\ tshape z = tshape y.
Proof.
  intros H. unfold tzip. rewrite (bcast_shape_to_l _ _ H).
  eexists. split; reflexivity.
Qed.

Lemma tzip_to_r (op : R -> R -> R) (x y : tensor) :
  broadcasts_to (tshape y) (tshape x) ->
  exists z, tzip op x y = Some z /\ tshape z = tshape x.
Proof.
  intros H. unfold tzip. rewrite (bcast_shape_to_r _ _ H).
  eexists. split; reflexivity.
Qed.

(** A time index of shape [[Bt, 1, 1, 1]], with [Bt] the batch size or 1,
    broadcasts to every tensor of that batch size. *)
Lemma time_broadcasts (Bt B H W C : nat) :
  Bt = 1%nat \/ Bt = B -> broadcasts_to (Shape Bt 1 1 1) (Shape B H W C).
Proof. unfold broadcasts_to. simpl. intuition. Qed.

(** A one-channel map broadcasts to every tensor of the same extents. *)
Lemma map_broadcasts (B H W C : nat) :
  broadcasts_to (Shape B H W 1) (Shape B H W C).
Proof. unfold broadcasts_to. simpl. auto. Qed.

Lemma belt_one_channel (x : tensor) (B H W b i j c : nat) :
  tshape x = Shape B H W 1 -> (b < B)%nat -> (i < H)%nat -> (j < W)%nat ->
  belt x b i j c = elt x b i j 0.
Proof.
  intros Sx Hb Hi Hj. unfold belt. rewrite Sx. cbn [batch height width channels].
  now rewrite !bidx_lt by assumption.
Qed.

(** ** Backward warping *)

Lemma dense_image_warp_Some (image flow : tensor) (B H W C : nat) :
  tshape image = Shape B H W C -> tshape flow = Shape B H W 2 ->
  (2 <= H)%nat -> (2 <= W)%nat ->
  dense_image_warp image flow =
    Some (Tensor (tshape image) (fun b i j c =>
            interpolate_bilinear image b
              (INR i - elt flow b i j 0) (INR j - elt flow b i j 1) c)).
Proof.
  intros Si Sf Hh Hw. unfold dense_image_warp, shape_eqb.
  rewrite Si, Sf. cbn [batch height width channels].
  apply Nat.leb_le in Hh, Hw. rewrite Hh, Hw, !Nat.eqb_refl. reflexivity.
Qed.

Lemma BackWarp_call_Some (image flow : tensor) (B H W C : nat) :
  tshape image = Shape B H W C -> tshape flow = Shape B H W 2 ->
  (2 <= H)%nat -> (2 <= W)%nat ->
  exists out,
    BackWarp.call BackWarp.build (image, flow) = Some out /\
    tshape out = Shape B H W C /\
    forall b i j c,
      elt out b i j c =
        interpolate_bilinear image b
          (INR i - elt flow b i j 0) (INR j - elt flow b i j 1) c.
Proof.
  intros Si Sf Hh Hw. unfold BackWarp.call, BackWarp.build.
  cbn [BackWarp.backwarp]. rewrite (dense_image_warp_Some _ _ _ _ _ _ Si Sf Hh Hw).
  cbn [bind]. eexists. split; [reflexivity |]. split; [exact Si | reflexivity].
Qed.

(** On the grid, the interpolation along one axis takes the pixel itself:
    the corner is the pixel with weight 0 for the next one, or, on the last
    row or column, the pixel before with weight 1. *)
Lemma floor_index_grid (size i : nat) :
  (2 <= size)%nat -> (i < size)%nat ->
  let f := floor_index size (INR i) in
  let a := Rmin (Rmax 0 (INR i - IZR f)) 1 in
  (Z.to_nat f = i /\ a = 0) \/ ((Z.to_nat f + 1)%nat = i /\ a = 1).
Proof.
  intros Hs Hi. unfold floor_index. rewrite INR_IZR_INZ, ZfloorZ.
  destruct (Nat.eq_dec i (size - 1)) as [E | E].
  - right.
    replace (Z.min (Z.max 0 (Z.of_nat i)) (Z.of_nat size - 2)) with (Z.of_nat i - 1)%Z by lia.
    split; [lia |]. rewrite minus_IZR.
    replace (IZR (Z.of_nat i) - (IZR (Z.of_nat i) - 1)) with 1 by ring.
    rewrite Rmax_right by lra. apply Rmin_left. lra.
  - left.
    replace (Z.min (Z.max 0 (Z.of_nat i)) (Z.of_nat size - 2)) with (Z.of_nat i) by lia.
    split; [lia |].
    replace (IZR (Z.of_nat i) - IZR (Z.of_nat i)) with 0 by ring.
    rewrite Rmax_left by lra. apply Rmin_left. lra.
Qed.

Lemma interpolate_bilinear_grid (x : tensor) (b i j c : nat) :
  (2 <= height (tshape x))%nat -> (2 <= width (tshape x))%nat ->
  (i < height (tshape x))%nat -> (j < width (tshape x))%nat ->
  interpolate_bilinear x b (INR i) (INR j) c = elt x b i j c.
Proof.
  intros Hh Hw Hi Hj. unfold interpolate_bilinear.
  destruct (floor_index_grid _ _ Hh Hi) as [[Ey ->] | [Ey ->]];
    destruct (floor_index_grid _ _ Hw Hj) as [[Ex ->] | [Ex ->]];
    remember (Z.to_nat (floor_index (height (tshape x)) (INR i))) as y0 eqn:Hy0;
    remember (Z.to_nat (floor_index (width (tshape x)) (INR j))) as x0 eqn:Hx0;
    clear Hy0 Hx0 Hi Hj; subst i j; ring.
Qed.

(** Inside the image the interpolation along one axis starts at the floor of
    the location and weighs the next pixel by the fractional part. *)
Lemma floor_index_inside (size : nat) (q : R) :
  0 <= q < INR size - 1 ->
  floor_index size q = Zfloor q /\
  (0 <= Zfloor q)%Z /\
  Rmin (Rmax 0 (q - IZR (Zfloor q))) 1 = q - IZR (Zfloor q).
Proof.
  intros [H0 H1]. pose proof (Zfloor_bound q) as [Hl Hu].
  assert (Hf0 : (0 <= Zfloor q)%Z) by (apply Zfloor_lub; simpl; lra).
  assert (Hf1 : (Zfloor q < Z.of_nat size - 1)%Z).
  { apply lt_IZR. rewrite minus_IZR, <- INR_IZR_INZ. lra. }
  unfold floor_index. repeat split.
  - lia.
  - exact Hf0.
  - rewrite Rmax_right by lra. apply Rmin_left. lra.
Qed.

Lemma interpolate_bilinear_inside (x : tensor) (b : nat) (qy qx : R) (c : nat) :
  0 <= qy < INR (height (tshape x)) - 1 ->
  0 <= qx < INR (width (tshape x)) - 1 ->
  let y0 := Z.to_nat (Zfloor qy) in
  let x0 := Z.to_nat (Zfloor qx) in
  let ay := qy - IZR (Zfloor qy) in
  let ax := qx - IZR (Zfloor qx) in
  interpolate_bilinear x b qy qx c =
    (1 - ay) * (1 - ax) * elt x b y0 x0 c +
    (1 - ay) * ax * elt x b y0 (x0 + 1) c +
    ay * (1 - ax) * elt x b (y0 + 1) x0 c +
    ay * ax * elt x b (y0 + 1) (x0 + 1) c.
Proof.
  intros Hy Hx. unfold interpolate_bilinear.
  destruct (floor_index_inside _ _ Hy) as (-> & _ & ->).
  destruct (floor_index_inside _ _ Hx) as (-> & _ & ->).
  cbv zeta. ring.
Qed.

(** C5. [BackWarp.call] returns the bilinear backward warp of the image by
    the flow: the output has the shape of the image, its entry at
    [(b, i, j, c)] is the image interpolated at
    [(i - flow[b,i,j,0], j - flow[b,i,j,1])], which inside the image is the
    weighted mean of the four surrounding pixels, and a flow that is zero
    everywhere gives back the image. *)
Theorem BackWarp_call_bilinear (image flow : tensor) (B H W C : nat) :
  tshape image = Shape B H W C -> tshape flow = Shape B H W 2 ->
  (2 <= H)%nat -> (2 <= W)%nat ->
  exists out,
    BackWarp.call BackWarp.build (image, flow) = Some out /\
    tshape out = tshape image /\
    (forall b i j c,
       elt out b i j c =
         interpolate_bilinear image b
           (INR i - elt flow b i j 0) (INR j - elt flow b i j 1) c) /\
    (forall b i j c,
       let qy := INR i - elt flow b i j 0 in
       let qx := INR j - elt flow b i j 1 in
       0 <= qy < INR H - 1 -> 0 <= qx < INR W - 1 ->
       let y0 := Z.to_nat (Zfloor qy) in
       let x0 := Z.to_nat (Zfloor qx) in
       let ay := qy - IZR (Zfloor qy) in
       let ax := qx - IZR (Zfloor qx) in
       elt out b i j c =
         (1 - ay) * (1 - ax) * elt image b y0 x0 c +
         (1 - ay) * ax * elt image b y0 (x0 + 1) c +
         ay * (1 - ax) * elt image b (y0 + 1) x0 c +
         ay * ax * elt image b (y0 + 1) (x0 + 1) c) /\
    ((forall b i j k, in_range (tshape flow) b i j k -> elt flow b i j k = 0) ->
     same_tensor out image).
Proof.
  intros Si Sf Hh Hw.
  destruct (BackWarp_call_Some image flow B H W C Si Sf Hh Hw) as (out & Ho & So & Eo).
  exists out. split; [exact Ho |]. split; [now rewrite So, Si |].
  split; [exact Eo |]. split.
  - intros b i j c qy qx Hy Hx. rewrite Eo.
    apply interpolate_bilinear_inside; rewrite Si; assumption.
  - intros Hz. split; [now rewrite So, Si |].
    intros b i j c Hr. rewrite So in Hr. destruct Hr as (Hb & Hi & Hj & Hc).
    cbn [batch height width channels] in Hb, Hi, Hj, Hc.
    rewrite Eo, !Hz by (rewrite Sf; unfold in_range; simpl; lia).
    rewrite !Rminus_0_r.
    apply interpolate_bilinear_grid; rewrite Si; assumption.
Qed.

Lemma BackWarp_call_bilinear_witness :
  exists out,
    BackWarp.call BackWarp.build (example_frames, example_flow) = Some out /\
    same_tensor out example_frames.
Proof.
  assert (H2 : (2 <= 2)%nat) by lia.
  destruct (BackWarp_call_bilinear example_frames example_flow 1 2 2 3
              eq_refl eq_refl H2 H2) as (out & Ho & _ & _ & _ & Hz).
  exists out. split; [exact Ho |]. apply Hz. reflexivity.
Defined.

(** ** The frame predicted by [Output.call] *)

(** Entry by entry, through broadcasting, whatever the shapes. *)
Lemma Output_call_values (self : Output.t)
  (frames_0 f_t0 v_t0 frames_1 f_t1 v_t1 t frame_pred : tensor) :
  Output.call self (frames_0, f_t0, v_t0, frames_1, f_t1, v_t1, t) = Some frame_pred ->
  exists g_i0_ft0 g_i1_ft1,
    BackWarp.call (Output.backwarp_layer_t0 self) (frames_0, f_t0) = Some g_i0_ft0 /\
    BackWarp.call (Output.backwarp_layer_t1 self) (frames_1, f_t1) = Some g_i1_ft1 /\
    forall b i j c,
      elt frame_pred b i j c =
        ((1 - belt t b i j c) * belt v_t0 b i j c * belt g_i0_ft0 b i j c +
         belt t b i j c * belt v_t1 b i j c * belt g_i1_ft1 b i j c) /
        ((1 - belt t b i j c) * belt v_t0 b i j c +
         belt t b i j c * belt v_t1 b i j c + 1e-12).
Proof.
  unfold Output.call. intros H.
  apply bind_Some in H as (g0 & Hg0 & H). apply bind_Some in H as (g1 & Hg1 & H).
  apply bind_Some in H as (z & Hz & H). apply bind_Some in H as (num & Hn & H).
  apply bind_Some in H as (out & Hd & H). injection H as <-.
  exists g0, g1. split; [exact Hg0 |]. split; [exact Hg1 |].
  unfold Output.denominator, tf_mul, tf_add, radd, rsub in Hz.
  apply bind_Some in Hz as (p & Hp & Hz). apply bind_Some in Hz as (q & Hq & Hz).
  apply bind_Some in Hz as (s & Hs & Hz). injection Hz as <-.
  unfold Output.numerator, tf_mul, tf_add, rsub in Hn.
  apply bind_Some in Hn as (a & Ha & Hn). apply bind_Some in Hn as (a' & Ha' & Hn).
  apply bind_Some in Hn as (b' & Hb & Hn). apply bind_Some in Hn as (b'' & Hb' & Hn).
  intros b i j c. unfold tf_divide in Hd.
  destruct (tzip_Some _ _ _ _ Hd) as [_ ->].
  rewrite (belt_tzip _ _ _ _ Hn), (belt_tzip _ _ _ _ Ha'), (belt_tzip _ _ _ _ Hb'),
    (belt_tzip _ _ _ _ Ha), (belt_tzip _ _ _ _ Hb), !belt_tmap,
    (belt_tzip _ _ _ _ Hs), (belt_tzip _ _ _ _ Hp), (belt_tzip _ _ _ _ Hq), !belt_tmap.
  reflexivity.
Qed.

(** C2. [Output.call] returns the visibility-weighted, normalised blend of
    the two backward-warped frames: with [g0 = backwarp(frames_0, f_t0)] and
    [g1 = backwarp(frames_1, f_t1)], every entry of the result is
    [((1-t) v_t0 g0 + t v_t1 g1) / ((1-t) v_t0 + t v_t1 + 1e-12)], the time
    index being one number per batch entry or one number for all. *)
Theorem Output_call_blend
  (frames_0 f_t0 v_t0 frames_1 f_t1 v_t1 t : tensor) (B H W C Bt : nat) :
  tshape frames_0 = Shape B H W C -> tshape frames_1 = Shape B H W C ->
  tshape f_t0 = Shape B H W 2 -> tshape f_t1 = Shape B H W 2 ->
  tshape v_t0 = Shape B H W 1 -> tshape v_t1 = Shape B H W 1 ->
  tshape t = Shape Bt 1 1 1 -> Bt = 1%nat \/ Bt = B ->
  (2 <= H)%nat -> (2 <= W)%nat ->
  exists g0 g1 frame_pred,
    BackWarp.call BackWarp.build (frames_0, f_t0) = Some g0 /\
    BackWarp.call BackWarp.build (frames_1, f_t1) = Some g1 /\
    Output.call Output.build (frames_0, f_t0, v_t0, frames_1, f_t1, v_t1, t)
      = Some frame_pred /\
    tshape frame_pred = Shape B H W C /\
    forall b i j c, in_range (Shape B H W C) b i j c ->
      elt frame_pred b i j c =
        ((1 - belt t b i j c) * elt v_t0 b i j 0 * elt g0 b i j c +
         belt t b i j c * elt v_t1 b i j 0 * elt g1 b i j c) /
        ((1 - belt t b i j c) * elt v_t0 b i j 0 +
         belt t b i j c * elt v_t1 b i j 0 + 1e-12).
Proof.
  intros S0 S1 Sf0 Sf1 Sv0 Sv1 St HBt Hh Hw.
  destruct (BackWarp_call_Some frames_0 f_t0 B H W C S0 Sf0 Hh Hw) as (g0 & Hg0 & Sg0 & _).
  destruct (BackWarp_call_Some frames_1 f_t1 B H W C S1 Sf1 Hh Hw) as (g1 & Hg1 & Sg1 & _).
  assert (Hret : exists frame_pred,
             Output.call Output.build (frames_0, f_t0, v_t0, frames_1, f_t1, v_t1, t)
               = Some frame_pred /\ tshape frame_pred = Shape B H W C).
  { unfold Output.call. cbn [Output.build Output.backwarp_layer_t0 Output.backwarp_layer_t1].
    rewrite Hg0, Hg1. cbn [bind].
    unfold Output.denominator, Output.numerator, tf_mul, tf_add, tf_divide, radd.
    destruct (tzip_to_l Rmult (rsub 1 t) v_t0) as (p & Hp & Sp);
      [rewrite Sv0; unfold rsub; cbn [tmap tshape]; rewrite St; now apply time_broadcasts |].
    destruct (tzip_to_l Rmult t v_t1) as (q & Hq & Sq);
      [rewrite Sv1, St; now apply time_broadcasts |].
    destruct (tzip_to_l Rplus p q) as (s & Hs & Ss);
      [rewrite Sp, Sq, Sv0, Sv1; apply broadcasts_to_refl |].
    destruct (tzip_to_l Rmult p g0) as (a & Ha & Sa);
      [rewrite Sp, Sv0, Sg0; apply map_broadcasts |].
    destruct (tzip_to_l Rmult q g1) as (a' & Ha' & Sa');
      [rewrite Sq, Sv1, Sg1; apply map_broadcasts |].
    destruct (tzip_to_l Rplus a a') as (n & Hn & Sn);
      [rewrite Sa, Sa', Sg0, Sg1; apply broadcasts_to_refl |].
    destruct (tzip_to_r Rdiv n (tmap (fun v => v + 1e-12) s)) as (o & Hd & So);
      [cbn [tmap tshape]; rewrite Ss, Sq, Sv1, Sn, Sa', Sg1; apply map_broadcasts |].
    rewrite Hp, Hq. cbn [bind]. rewrite Hs. cbn [bind]. rewrite Ha. cbn [bind].
    rewrite Ha'. cbn [bind]. rewrite Hn. cbn [bind]. rewrite Hd. cbn [bind].
    exists o. split; [reflexivity |]. now rewrite So, Sn, Sa', Sg1. }
  destruct Hret as (frame_pred & Hcall & Sout).
  exists g0, g1, frame_pred.
  split; [exact Hg0 |]. split; [exact Hg1 |]. split; [exact Hcall |].
  split; [exact Sout |].
  destruct (Output_call_values _ _ _ _ _ _ _ _ _ Hcall) as (g0' & g1' & Hg0' & Hg1' & Hv).
  cbn [Output.build Output.backwarp_layer_t0 Output.backwarp_layer_t1] in Hg0', Hg1'.
  rewrite Hg0 in Hg0'. rewrite Hg1 in Hg1'. injection Hg0' as <-. injection Hg1' as <-.
  intros b i j c (Hb & Hi & Hj & Hc). cbn [batch height width channels] in Hb, Hi, Hj, Hc.
  rewrite Hv.
  rewrite (belt_one_channel v_t0 B H W b i j c Sv0 Hb Hi Hj),
    (belt_one_channel v_t1 B H W b i j c Sv1 Hb Hi Hj).
  rewrite (belt_in_range g0), (belt_in_range g1)
    by (rewrite ?Sg0, ?Sg1; unfold in_range; simpl; lia).
  reflexivity.
Qed.

Lemma Output_call_blend_witness :
  exists g0 g1 frame_pred,
    BackWarp.call BackWarp.build (example_frames, example_flow) = Some g0 /\
    BackWarp.call BackWarp.build (example_frames, example_flow) = Some g1 /\
    Output.call Output.build
      (example_frames, example_flow, example_visibility,
       example_frames, example_flow, example_visibility, example_time)
    = Some frame_pred /\
    elt frame_pred 0 0 0 0 =
      ((1 - 1 / 2) * (1 / 2) * elt g0 0 0 0 0 + 1 / 2 * (1 / 2) * elt g1 0 0 0 0) /
      ((1 - 1 / 2) * (1 / 2) + 1 / 2 * (1 / 2) + 1e-12).
Proof.
  assert (H2 : (2 <= 2)%nat) by lia.
  destruct (Output_call_blend
              example_frames example_flow example_visibility
              example_frames example_flow example_visibility example_time
              1 2 2 3 1 eq_refl eq_refl eq_refl eq_refl eq_refl eq_refl eq_refl
              (or_introl eq_refl) H2 H2)
    as (g0 & g1 & frame_pred & Hg0 & Hg1 & Hc & _ & Hv).
  exists g0, g1, frame_pred.
  split; [exact Hg0 |]. split; [exact Hg1 |]. split; [exact Hc |].
  apply (Hv 0%nat 0%nat 0%nat 0%nat). unfold in_range. simpl. lia.
Defined.

(** ** The stages of [UNet.call] *)

(** C3. [UNet.call] returns [y] exactly when the stages, run in this order,
    return: [conv1] and LeakyReLU(0.1); [conv2] and LeakyReLU(0.1), which
    gives [skip1]; the five encoders, which give [skip2] to [skip5] and the
    bottleneck; the five decoders, each on the output of the stage before it
    and on the skip tensors in the reverse order of their production; [conv3]
    and LeakyReLU(0.1).  For extents of at least 32 they do return. *)
Theorem UNet_call_stages
  {F : Framework} {FS : FrameworkShapes F}
  (out_filters : nat) (w : UNet.weights) (x : tensor) :
  let lrelu := LeakyReLU.call (LeakyReLU.new 0.1) in
  (forall y,
     UNet.call (UNet.build out_filters w) x = Some y <->
     exists c1 c2 skip1 skip2 skip3 skip4 skip5 x_enc d1 d2 d3 d4 d5 c3,
       conv2d (Conv2D.new 32 7 1 same (UNet.w_conv1 w)) x = Some c1 /\
       conv2d (Conv2D.new 32 7 1 same (UNet.w_conv2 w)) (lrelu c1) = Some c2 /\
       skip1 = lrelu c2 /\
       Encoder.call (Encoder.build 64 5 (UNet.w_encoder1 w)) skip1 = Some skip2 /\
       Encoder.call (Encoder.build 128 5 (UNet.w_encoder2 w)) skip2 = Some skip3 /\
       Encoder.call (Encoder.build 256 3 (UNet.w_encoder3 w)) skip3 = Some skip4 /\
       Encoder.call (Encoder.build 512 3 (UNet.w_encoder4 w)) skip4 = Some skip5 /\
       Encoder.call (Encoder.build 512 3 (UNet.w_encoder5 w)) skip5 = Some x_enc /\
       Decoder.call (Decoder.build 512 (UNet.w_decoder1 w)) (x_enc, skip5) = Some d1 /\
       Decoder.call (Decoder.build 256 (UNet.w_decoder2 w)) (d1, skip4) = Some d2 /\
       Decoder.call (Decoder.build 128 (UNet.w_decoder3 w)) (d2, skip3) = Some d3 /\
       Decoder.call (Decoder.build 64 (UNet.w_decoder4 w)) (d3, skip2) = Some d4 /\
       Decoder.call (Decoder.build 32 (UNet.w_decoder5 w)) (d4, skip1) = Some d5 /\
       conv2d (Conv2D.new out_filters 3 1 same (UNet.w_conv3 w)) d5 = Some c3 /\
       y = lrelu c3) /\
  ((32 <= height (tshape x))%nat -> (32 <= width (tshape x))%nat ->
   exists y, UNet.call (UNet.build out_filters w) x = Some y).
Proof.
  intros lrelu. split.
  - intros y. unfold UNet.call, UNet.build.
    cbn [UNet.conv1 UNet.conv2 UNet.conv3 UNet.leaky_relu
         UNet.encoder1 UNet.encoder2 UNet.encoder3 UNet.encoder4 UNet.encoder5
         UNet.decoder1 UNet.decoder2 UNet.decoder3 UNet.decoder4 UNet.decoder5].
    fold lrelu. split.
    + intros H.
      apply bind_Some in H as (c1 & H1 & H). apply bind_Some in H as (c2 & H2 & H).
      apply bind_Some in H as (skip2 & E1 & H). apply bind_Some in H as (skip3 & E2 & H).
      apply bind_Some in H as (skip4 & E3 & H). apply bind_Some in H as (skip5 & E4 & H).
      apply bind_Some in H as (x_enc & E5 & H).
      apply bind_Some in H as (d1 & D1 & H). apply bind_Some in H as (d2 & D2 & H).
      apply bind_Some in H as (d3 & D3 & H). apply bind_Some in H as (d4 & D4 & H).
      apply bind_Some in H as (d5 & D5 & H). apply bind_Some in H as (c3 & H3 & H).
      injection H as <-.
      exists c1, c2, (lrelu c2), skip2, skip3, skip4, skip5, x_enc, d1, d2, d3, d4, d5, c3.
      repeat (split; [first [assumption | reflexivity] |]). reflexivity.
    + intros (c1 & c2 & skip1 & skip2 & skip3 & skip4 & skip5 & x_enc & d1 & d2 & d3
              & d4 & d5 & c3 & H1 & H2 & -> & E1 & E2 & E3 & E4 & E5 & D1 & D2 & D3
              & D4 & D5 & H3 & ->).
      rewrite H1. cbn [bind]. rewrite H2. cbn [bind]. rewrite E1. cbn [bind].
      rewrite E2. cbn [bind]. rewrite E3. cbn [bind]. rewrite E4. cbn [bind].
      rewrite E5. cbn [bind]. rewrite D1. cbn [bind]. rewrite D2. cbn [bind].
      rewrite D3. cbn [bind]. rewrite D4. cbn [bind]. rewrite D5. cbn [bind].
      rewrite H3. reflexivity.
  - intros Hh Hw. destruct (UNet_call_shape out_filters w x Hh Hw) as (y & Hy & _).
    exists y. exact Hy.
Qed.

Lemma UNet_call_stages_witness :
  exists y, UNet.call (F := reference) (UNet.build 5 zero_weights) example_frames32 = Some y.
Proof.
  assert (H32 : (32 <= 32)%nat) by lia.
  exact (proj2 (UNet_call_stages (FS := reference_shapes) 5 zero_weights example_frames32)
           H32 H32).
Defined.

(** ** The padding and concatenation of [Decoder.call] *)

Lemma tf_pad_trailing_inv (x p : tensor) (x_delta y_delta : Z) :
  tf_pad x [(0, 0); (0, x_delta); (0, y_delta); (0, 0)]%Z = Some p ->
  (0 <= x_delta)%Z /\ (0 <= y_delta)%Z.
Proof.
  unfold tf_pad. cbn [Z.leb Z.compare andb].
  destruct (Z.leb_spec 0 x_delta); [| discriminate].
  destruct (Z.leb_spec 0 y_delta); [| discriminate]. auto.
Qed.

Lemma concat2_inv (x y r : tensor) :
  concat2 x y = Some r ->
  batch (tshape x) = batch (tshape y) /\
  height (tshape x) = height (tshape y) /\
  width (tshape x) = width (tshape y).
Proof.
  unfold concat2.
  destruct (Nat.eqb_spec (batch (tshape x)) (batch (tshape y))); [| discriminate].
  destruct (Nat.eqb_spec (height (tshape x)) (height (tshape y))); [| discriminate].
  destruct (Nat.eqb_spec (width (tshape x)) (width (tshape y))); [| discriminate].
  auto.
Qed.

(** C4. [Decoder.call] returns [y] exactly when these steps return: the
    bilinear upsampling of [x] by 2, [conv1] and LeakyReLU(0.1), which give
    [r]; the padding of [r] with zeros by [skip.height - r.height] rows at the
    bottom and [skip.width - r.width] columns at the right, which gives [p]
    with the spatial extents of [skip], the batch size and channels of [r],
    the entries of [r] where [r] has them and zero elsewhere; the
    concatenation of [p] and [skip], which only adds up the channels; [conv2]
    and LeakyReLU(0.1).  When [x] has at least one row and one column and
    [skip] has the batch size of [x] and at least twice its extents, they do
    return. *)
Theorem Decoder_call_pads_and_concatenates
  {F : Framework} {FS : FrameworkShapes F}
  (filters : nat) (w : Decoder.weights) (x skip : tensor) :
  let lrelu := LeakyReLU.call (LeakyReLU.new 0.1) in
  (forall y,
     Decoder.call (Decoder.build filters w) (x, skip) = Some y <->
     exists u c1 r p cat c2,
       up_sampling2d (UpSampling2D.new (2, 2)%nat bilinear) x = Some u /\
       conv2d (Conv2D.new filters 3 1 same (Decoder.w_conv1 w)) u = Some c1 /\
       r = lrelu c1 /\
       tf_pad r [(0, 0);
                 (0, Z.of_nat (height (tshape skip)) - Z.of_nat (height (tshape r)));
                 (0, Z.of_nat (width (tshape skip)) - Z.of_nat (width (tshape r)));
                 (0, 0)]%Z = Some p /\
       tshape p = Shape (batch (tshape r)) (height (tshape skip))
                        (width (tshape skip)) (channels (tshape r)) /\
       (forall b i j c, in_range (tshape p) b i j c ->
          elt p b i j c =
            if (i <? height (tshape r))%nat && (j <? width (tshape r))%nat
            then elt r b i j c else 0) /\
       tf_concat3 [p; skip] = Some cat /\
       tshape cat = Shape (batch (tshape skip)) (height (tshape skip))
                          (width (tshape skip))
                          (channels (tshape r) + channels (tshape skip)) /\
       (forall b i j c,
          elt cat b i j c =
            if (c <? channels (tshape r))%nat then elt p b i j c
            else elt skip b i j (c - channels (tshape r))) /\
       conv2d (Conv2D.new filters 3 1 same (Decoder.w_conv2 w)) cat = Some c2 /\
       y = lrelu c2) /\
  ((1 <= height (tshape x))%nat -> (1 <= width (tshape x))%nat ->
   batch (tshape x) = batch (tshape skip) ->
   (2 * height (tshape x) <= height (tshape skip))%nat ->
   (2 * width (tshape x) <= width (tshape skip))%nat ->
   exists y,
     Decoder.call (Decoder.build filters w) (x, skip) = Some y /\
     tshape y = Shape (batch (tshape skip)) (height (tshape skip))
                      (width (tshape skip)) filters).
Proof.
  intros lrelu. split; [| apply Decoder_call_shape].
  intros y. unfold Decoder.call, Decoder.build, Decoder.paddings.
  cbn [Decoder.interpolation Decoder.conv1 Decoder.conv2 Decoder.leaky_relu].
  fold lrelu. split.
  - intros H.
    apply bind_Some in H as (u & Hu & H). apply bind_Some in H as (c1 & H1 & H).
    apply bind_Some in H as (p & Hp & H). apply bind_Some in H as (cat & Hc & H).
    apply bind_Some in H as (c2 & H2 & H). injection H as <-.
    exists u, c1, (lrelu c1), p, cat, c2.
    destruct (tf_pad_trailing_inv _ _ _ _ Hp) as [Hx Hy].
    destruct (tf_pad_trailing (lrelu c1) _ _ Hx Hy) as (p' & Hp' & Sp & Ep).
    rewrite Hp in Hp'. injection Hp' as <-.
    cbn [tf_concat3 fold_left bind] in Hc.
    destruct (concat2_inv _ _ _ Hc) as (Eb & Eh & Ew).
    destruct (concat2_Some p skip Eb Eh Ew) as (cat' & Hc' & Sc & Ec).
    rewrite Hc in Hc'. injection Hc' as <-.
    assert (Sp' : tshape p = Shape (batch (tshape (lrelu c1))) (height (tshape skip))
                                   (width (tshape skip)) (channels (tshape (lrelu c1)))).
    { rewrite Sp. f_equal; lia. }
    split; [exact Hu |]. split; [exact H1 |]. split; [reflexivity |].
    split; [exact Hp |]. split; [exact Sp' |]. split; [exact Ep |].
    split; [exact Hc |].
    split; [rewrite Sc, Sp'; cbn [batch height width channels]; now rewrite <- Eb, Sp' |].
    split; [intros b i j c; rewrite Ec, Sp'; reflexivity |].
    split; [exact H2 | reflexivity].
  - intros (u & c1 & r & p & cat & c2 & Hu & H1 & -> & Hp & _ & _ & Hc & _ & _ & H2 & ->).
    rewrite Hu. cbn [bind]. rewrite H1. cbn [bind]. rewrite Hp. cbn [bind].
    rewrite Hc. cbn [bind]. rewrite H2. reflexivity.
Qed.

Lemma Decoder_call_pads_and_concatenates_witness :
  exists y,
    Decoder.call (F := reference) (Decoder.build 8 zero_decoder)
      (example_frames, example_skip) = Some y /\
    tshape y = Shape 1 5 5 8.
Proof.
  assert (H45 : (2 * 2 <= 5)%nat) by lia.
  assert (H12 : (1 <= 2)%nat) by lia.
  exact (proj2 (Decoder_call_pads_and_concatenates (FS := reference_shapes)
                  8 zero_decoder example_frames example_skip)
           H12 H12 eq_refl H45 H45).
Defined.

(** ** The steps of [OpticalFlow.call] *)

Lemma intermediate_flows_Some (f_01 f_10 t : tensor) (B H W Bt : nat) :
  tshape f_01 = Shape B H W 2 -> tshape f_10 = Shape B H W 2 ->
  tshape t = Shape Bt 1 1 1 -> Bt = 1%nat \/ Bt = B ->
  exists f_t0_t f_t1_t,
    OpticalFlow.intermediate_flows f_01 f_10 t = Some (f_t0_t, f_t1_t) /\
    tshape f_t0_t = Shape B H W 2 /\ tshape f_t1_t = Shape B H W 2.
Proof.
  intros S01 S10 St HBt.
  unfold OpticalFlow.intermediate_flows, tf_mul, tf_add, tf_sub, rsub, rmul.
  destruct (tzip_to_l Rmult (tmap (fun v => -1 * v) (tmap (fun v => 1 - v) t)) t)
    as (t0 & -> & St0); [apply broadcasts_to_refl |]. cbn [bind].
  destruct (tzip_to_l Rmult t t) as (t1 & -> & St1); [apply broadcasts_to_refl |].
  cbn [bind].
  destruct (tzip_to_l Rmult t0 f_01) as (a & -> & Sa);
    [rewrite St0, St, S01; now apply time_broadcasts |]. cbn [bind].
  destruct (tzip_to_l Rmult t1 f_10) as (b & -> & Sb);
    [rewrite St1, St, S10; now apply time_broadcasts |]. cbn [bind].
  destruct (tzip_to_l Rplus a b) as (f0 & -> & Sf0);
    [rewrite Sa, Sb, S01, S10; apply broadcasts_to_refl |]. cbn [bind].
  destruct (tzip_to_l Rmult (tmap (fun v => 1 - v) t) (tmap (fun v => 1 - v) t))
    as (t1' & -> & St1'); [apply broadcasts_to_refl |]. cbn [bind].
  destruct (tzip_to_l Rmult t1' f_01) as (a' & -> & Sa');
    [rewrite St1'; cbn [tmap tshape]; rewrite St, S01; now apply time_broadcasts |].
  cbn [bind].
  destruct (tzip_to_l Rmult t0 f_10) as (b' & -> & Sb');
    [rewrite St0, St, S10; now apply time_broadcasts |]. cbn [bind].
  destruct (tzip_to_l Rminus a' b') as (f1 & -> & Sf1);
    [rewrite Sa', Sb', S01, S10; apply broadcasts_to_refl |]. cbn [bind].
  exists f0, f1. split; [reflexivity |].
  split; [now rewrite Sf0, Sb, S10 | now rewrite Sf1, Sb', S10].
Qed.

(** A concatenation of tensors of the same batch size and extents returns,
    and adds up the channels. *)
Lemma tf_concat3_Some (B H W : nat) (xs : list tensor) (x : tensor) :
  Forall (fun y => batch (tshape y) = B /\ height (tshape y) = H /\
                   width (tshape y) = W) (x :: xs) ->
  exists r,
    tf_concat3 (x :: xs) = Some r /\
    tshape r = Shape B H W
                 (channels (tshape x) + list_sum (map (fun y => channels (tshape y)) xs)).
Proof.
  cbn [tf_concat3]. revert x. induction xs as [| y xs IH]; intros x Hall.
  - inversion Hall as [| ? ? (Hb & Hh & Hw) _]; subst. cbn [fold_left map list_sum].
    exists x. split; [reflexivity |]. destruct (tshape x). simpl. f_equal. lia.
  - inversion Hall as [| ? ? (Hb & Hh & Hw) Hrest]; subst.
    inversion Hrest as [| ? ? (Hb' & Hh' & Hw') Hxs]; subst.
    cbn [fold_left bind].
    destruct (concat2_Some x y) as (r & -> & Sr & _); [congruence .. |].
    destruct (IH r) as (r' & Hr' & Sr').
    { constructor; [rewrite Sr; simpl; auto | exact Hxs]. }
    exists r'. split; [exact Hr' |]. rewrite Sr', Sr. cbn [channels map].
    change (list_sum (channels (tshape y) :: map (fun y0 => channels (tshape y0)) xs))
      with (channels (tshape y) + list_sum (map (fun y0 => channels (tshape y0)) xs))%nat.
    f_equal. lia.
Qed.

Section OpticalFlowSteps.
Context {F : Framework} {FS : FrameworkShapes F}.

Lemma OpticalFlow_call_steps (w : UNet.weights)
  (frames_0 frames_1 f_01 f_10 t : tensor) (B H W C Bt : nat) :
  tshape frames_0 = Shape B H W C -> tshape frames_1 = Shape B H W C ->
  tshape f_01 = Shape B H W 2 -> tshape f_10 = Shape B H W 2 ->
  tshape t = Shape Bt 1 1 1 -> Bt = 1%nat \/ Bt = B ->
  (32 <= H)%nat -> (32 <= W)%nat ->
  exists f_t0_t f_t1_t g_i0_ft0 g_i1_ft1 flow_interp_in flow_interp_out f_t0 f_t1,
    OpticalFlow.intermediate_flows f_01 f_10 t = Some (f_t0_t, f_t1_t) /\
    tshape f_t0_t = Shape B H W 2 /\ tshape f_t1_t = Shape B H W 2 /\
    BackWarp.call BackWarp.build (frames_0, f_t0_t) = Some g_i0_ft0 /\
    BackWarp.call BackWarp.build (frames_1, f_t1_t) = Some g_i1_ft1 /\
    tf_concat3 [frames_0; frames_1; f_01; f_10; f_t1_t; f_t0_t; g_i1_ft1; g_i0_ft0]
      = Some flow_interp_in /\
    tshape flow_interp_in = Shape B H W (C + (C + (2 + (2 + (2 + (2 + (C + (C + 0)))))))) /\
    UNet.call (UNet.build 5 w) flow_interp_in = Some flow_interp_out /\
    tshape flow_interp_out = Shape B H W 5 /\
    tf_add f_t0_t (slice_channels 0 2 flow_interp_out) = Some f_t0 /\
    tf_add f_t1_t (slice_channels 2 4 flow_interp_out) = Some f_t1 /\
    OpticalFlow.call (OpticalFlow.build w) (frames_0, frames_1, f_01, f_10, t)
      = Some (f_t0, tmap sigmoid (slice_channels 4 5 flow_interp_out),
              f_t1, rsub 1 (tmap sigmoid (slice_channels 4 5 flow_interp_out)),
              g_i0_ft0, g_i1_ft1).
Proof.
  intros S0 S1 S01 S10 St HBt Hh Hw.
  assert (Hh2 : (2 <= H)%nat) by lia. assert (Hw2 : (2 <= W)%nat) by lia.
  destruct (intermediate_flows_Some f_01 f_10 t B H W Bt S01 S10 St HBt)
    as (f_t0_t & f_t1_t & Hint & Sf0 & Sf1).
  destruct (BackWarp_call_Some frames_0 f_t0_t B H W C S0 Sf0 Hh2 Hw2) as (g0 & Hg0 & Sg0 & _).
  destruct (BackWarp_call_Some frames_1 f_t1_t B H W C S1 Sf1 Hh2 Hw2) as (g1 & Hg1 & Sg1 & _).
  destruct (tf_concat3_Some B H W [frames_1; f_01; f_10; f_t1_t; f_t0_t; g1; g0] frames_0)
    as (cat & Hcat & Scat).
  { repeat constructor;
      rewrite ?S0, ?S1, ?S01, ?S10, ?Sf0, ?Sf1, ?Sg0, ?Sg1; reflexivity. }
  cbn [map list_sum] in Scat.
  rewrite S0, S1, S01, S10, Sf0, Sf1, Sg0, Sg1 in Scat. cbn [channels] in Scat.
  destruct (UNet_call_shape 5 w cat) as (out & Hout & Sout);
    [rewrite Scat; exact Hh | rewrite Scat; exact Hw |].
  rewrite Scat in Sout. cbn [batch height width] in Sout.
  destruct (tzip_to_l Rplus f_t0_t (slice_channels 0 2 out)) as (f_t0 & Hf0 & _).
  { unfold slice_channels. cbn [tshape]. rewrite Sf0, Sout. apply broadcasts_to_refl. }
  destruct (tzip_to_l Rplus f_t1_t (slice_channels 2 4 out)) as (f_t1 & Hf1 & _).
  { unfold slice_channels. cbn [tshape]. rewrite Sf1, Sout. apply broadcasts_to_refl. }
  exists f_t0_t, f_t1_t, g0, g1, cat, out, f_t0, f_t1.
  repeat (split; [assumption |]).
  unfold OpticalFlow.call, OpticalFlow.build.
  cbn [OpticalFlow.flow_interp_layer OpticalFlow.backwarp_layer_t0
       OpticalFlow.backwarp_layer_t1].
  rewrite Hint. cbn [bind]. rewrite Hg0. cbn [bind]. rewrite Hg1. cbn [bind].
  rewrite Hcat. cbn [bind]. rewrite Hout. cbn [bind].
  unfold tf_add in Hf0, Hf1 |- *. rewrite Hf0. cbn [bind]. rewrite Hf1. reflexivity.
Qed.

End OpticalFlowSteps.

Lemma tzip_same_shape (op : R -> R -> R) (x y z : tensor) (s : shape) :
  tshape x = s -> tshape y = s -> tzip op x y = Some z ->
  tshape z = s /\
  forall b i j c, in_range s b i j c ->
    elt z b i j c = op (elt x b i j c) (elt y b i j c).
Proof.
  intros Sx Sy H. destruct (tzip_Some _ _ _ _ H) as [Hs He].
  rewrite Sx, Sy, (bcast_shape_to_l s s (broadcasts_to_refl s)) in Hs.
  injection Hs as <-. split; [reflexivity |].
  intros b i j c Hr. rewrite He, !belt_in_range by (rewrite ?Sx, ?Sy; exact Hr).
  reflexivity.
Qed.

(** C6. [OpticalFlow.call] concatenates
    [frames_0, frames_1, f_01, f_10, f_t1_t, f_t0_t, g_i1_ft1, g_i0_ft0] along
    the channels, runs the UNet with 5 output channels on the result, and
    returns the flows [f_t0 = f_t0_t + channels 0-1] and
    [f_t1 = f_t1_t + channels 2-3], the maps [v_t0 = sigmoid(channel 4)] and
    [v_t1 = 1 - v_t0], and the two frames warped by the intermediate flows. *)
Theorem OpticalFlow_call_refines
  {F : Framework} {FS : FrameworkShapes F} (w : UNet.weights)
  (frames_0 frames_1 f_01 f_10 t : tensor) (B H W C Bt : nat) :
  tshape frames_0 = Shape B H W C -> tshape frames_1 = Shape B H W C ->
  tshape f_01 = Shape B H W 2 -> tshape f_10 = Shape B H W 2 ->
  tshape t = Shape Bt 1 1 1 -> Bt = 1%nat \/ Bt = B ->
  (32 <= H)%nat -> (32 <= W)%nat ->
  exists f_t0_t f_t1_t g_i0_ft0 g_i1_ft1 flow_interp_in flow_interp_out
         f_t0 v_t0 f_t1 v_t1,
    OpticalFlow.intermediate_flows f_01 f_10 t = Some (f_t0_t, f_t1_t) /\
    BackWarp.call BackWarp.build (frames_0, f_t0_t) = Some g_i0_ft0 /\
    BackWarp.call BackWarp.build (frames_1, f_t1_t) = Some g_i1_ft1 /\
    tf_concat3 [frames_0; frames_1; f_01; f_10; f_t1_t; f_t0_t; g_i1_ft1; g_i0_ft0]
      = Some flow_interp_in /\
    UNet.out_filters (OpticalFlow.flow_interp_layer (OpticalFlow.build w)) = 5%nat /\
    UNet.call (OpticalFlow.flow_interp_layer (OpticalFlow.build w)) flow_interp_in
      = Some flow_interp_out /\
    tshape flow_interp_out = Shape B H W 5 /\
    OpticalFlow.call (OpticalFlow.build w) (frames_0, frames_1, f_01, f_10, t)
      = Some (f_t0, v_t0, f_t1, v_t1, g_i0_ft0, g_i1_ft1) /\
    tshape f_t0 = Shape B H W 2 /\ tshape f_t1 = Shape B H W 2 /\
    tshape v_t0 = Shape B H W 1 /\ tshape v_t1 = Shape B H W 1 /\
    forall b i j, (b < B)%nat -> (i < H)%nat -> (j < W)%nat ->
      (forall c, (c < 2)%nat ->
         elt f_t0 b i j c = elt f_t0_t b i j c + elt flow_interp_out b i j c /\
         elt f_t1 b i j c = elt f_t1_t b i j c + elt flow_interp_out b i j (2 + c)) /\
      elt v_t0 b i j 0 = sigmoid (elt flow_interp_out b i j 4) /\
      elt v_t1 b i j 0 = 1 - elt v_t0 b i j 0.
Proof.
  intros S0 S1 S01 S10 St HBt Hh Hw.
  destruct (OpticalFlow_call_steps w frames_0 frames_1 f_01 f_10 t B H W C Bt
              S0 S1 S01 S10 St HBt Hh Hw)
    as (f_t0_t & f_t1_t & g0 & g1 & cat & out & f_t0 & f_t1 & Hint & Sf0 & Sf1 & Hg0
        & Hg1 & Hcat & _ & Hout & Sout & Hf0 & Hf1 & Hcall).
  assert (Sd0 : tshape (slice_channels 0 2 out) = Shape B H W 2)
    by (unfold slice_channels; cbn [tshape]; now rewrite Sout).
  assert (Sd1 : tshape (slice_channels 2 4 out) = Shape B H W 2)
    by (unfold slice_channels; cbn [tshape]; now rewrite Sout).
  destruct (tzip_same_shape _ _ _ _ _ Sf0 Sd0 Hf0) as [Sr0 Er0].
  destruct (tzip_same_shape _ _ _ _ _ Sf1 Sd1 Hf1) as [Sr1 Er1].
  exists f_t0_t, f_t1_t, g0, g1, cat, out, f_t0,
    (tmap sigmoid (slice_channels 4 5 out)), f_t1,
    (rsub 1 (tmap sigmoid (slice_channels 4 5 out))).
  split; [exact Hint |]. split; [exact Hg0 |]. split; [exact Hg1 |].
  split; [exact Hcat |]. split; [reflexivity |]. split; [exact Hout |].
  split; [exact Sout |]. split; [exact Hcall |].
  split; [exact Sr0 |]. split; [exact Sr1 |].
  split; [unfold slice_channels; cbn [tmap tshape]; now rewrite Sout |].
  split; [unfold rsub, slice_channels; cbn [tmap tshape]; now rewrite Sout |].
  intros b i j Hb Hi Hj. split; [| split; reflexivity].
  intros c Hc.
  rewrite Er0, Er1 by (unfold in_range; simpl; lia).
  split; reflexivity.
Qed.

Lemma OpticalFlow_call_refines_witness :
  exists f_t0 v_t0 f_t1 v_t1 g_i0_ft0 g_i1_ft1,
    OpticalFlow.call (F := reference) (OpticalFlow.build zero_weights)
      (example_frames32, example_frames32, example_flow32, example_flow32, example_time)
    = Some (f_t0, v_t0, f_t1, v_t1, g_i0_ft0, g_i1_ft1) /\
    tshape f_t0 = Shape 1 32 32 2 /\ tshape v_t0 = Shape 1 32 32 1.
Proof.
  assert (H32 : (32 <= 32)%nat) by lia.
  destruct (OpticalFlow_call_refines (F := reference) (FS := reference_shapes)
              zero_weights example_frames32 example_frames32
              example_flow32 example_flow32 example_time 1 32 32 3 1
              eq_refl eq_refl eq_refl eq_refl eq_refl (or_introl eq_refl) H32 H32)
    as (f_t0_t & f_t1_t & g0 & g1 & cat & out & f_t0 & v_t0 & f_t1 & v_t1 & _ & _ & _
        & _ & _ & _ & _ & Hcall & Sf0 & _ & Sv0 & _).
  exists f_t0, v_t0, f_t1, v_t1, g0, g1.
  split; [exact Hcall |]. split; [exact Sf0 | exact Sv0].
Defined.


(** * Further properties of the layers *)

(** ** Entries read through broadcasting *)

Lemma in_range_bread (x : tensor) (b i j c : nat) :
  in_range (tshape x) b i j c -> bread x b i j c.
Proof.
  intros (Hb & Hi & Hj & Hc). unfold bread. now rewrite !bidx_lt by assumption.
Qed.

Lemma tzip_bread (op : R -> R -> R) (x y z : tensor) (b i j c : nat) :
  tzip op x y = Some z -> bread z b i j c -> bread x b i j c /\ bread y b i j c.
Proof.
  intros H Hz. destruct (tzip_Some _ _ _ _ H) as [Hs _].
  destruct (bcast_in_range _ _ _ _ _ _ _ Hs Hz) as [Hx Hy].
  apply bcast_shape_Some in Hs as (Eb & Eh & Ew & Ec).
  unfold bread.
  destruct (bidx_bcast _ _ _ b Eb) as [<- <-]. destruct (bidx_bcast _ _ _ i Eh) as [<- <-].
  destruct (bidx_bcast _ _ _ j Ew) as [<- <-]. destruct (bidx_bcast _ _ _ c Ec) as [<- <-].
  split; assumption.
Qed.

Lemma belt_bread (P : R -> Prop) (x : tensor) (b i j c : nat) :
  (forall b' i' j' c', in_range (tshape x) b' i' j' c' -> P (elt x b' i' j' c')) ->
  bread x b i j c -> P (belt x b i j c).
Proof. intros H Hr. apply H. exact Hr. Qed.

(** ** The intermediate flows at the ends of the time interval *)

(** X1. Whenever lines 158 to 163 of [OpticalFlow.call] return, the
    intermediate flows are, entry by entry and through broadcasting,
    [f_t0_t = -(1-t) t f_01 + t^2 f_10] and
    [f_t1_t = (1-t)^2 f_01 + t (1-t) f_10]; at [t = 0] they are [0] and [f_01],
    at [t = 1] they are [f_10] and [0]. *)
Theorem intermediate_flows_closed_form (f_01 f_10 t f_t0_t f_t1_t : tensor) :
  OpticalFlow.intermediate_flows f_01 f_10 t = Some (f_t0_t, f_t1_t) ->
  forall b i j c,
    let tau := belt t b i j c in
    elt f_t0_t b i j c =
      - (1 - tau) * tau * belt f_01 b i j c + tau * tau * belt f_10 b i j c /\
    elt f_t1_t b i j c =
      (1 - tau) * (1 - tau) * belt f_01 b i j c + tau * (1 - tau) * belt f_10 b i j c /\
    (tau = 0 -> elt f_t0_t b i j c = 0 /\ elt f_t1_t b i j c = belt f_01 b i j c) /\
    (tau = 1 -> elt f_t0_t b i j c = belt f_10 b i j c /\ elt f_t1_t b i j c = 0).
Proof.
  intros H b i j c tau.
  destruct (intermediate_flows_values _ _ _ _ _ H b i j c) as [E0 E1].
  fold tau in E0, E1. rewrite E0, E1.
  split; [reflexivity |]. split; [reflexivity |].
  split; intros ->; split; ring.
Qed.

Lemma intermediate_flows_closed_form_witness :
  exists f_t0_t f_t1_t,
    OpticalFlow.intermediate_flows example_flow example_flow example_time
      = Some (f_t0_t, f_t1_t) /\
    elt f_t1_t 0 0 0 0 =
      (1 - 1 / 2) * (1 - 1 / 2) * 0 + 1 / 2 * (1 - 1 / 2) * 0.
Proof.
  do 2 eexists. split; [reflexivity |].
  refine (proj1 (proj2 (intermediate_flows_closed_form
                          example_flow example_flow example_time _ _ eq_refl
                          0%nat 0%nat 0%nat 0%nat))).
Defined.

(** ** The range of a warped image *)

Lemma shape_eqb_eq (s1 s2 : shape) : shape_eqb s1 s2 = true -> s1 = s2.
Proof.
  unfold shape_eqb. intros H.
  apply andb_prop in H as [H Hc]. apply andb_prop in H as [H Hw].
  apply andb_prop in H as [Hb Hh].
  apply Nat.eqb_eq in Hb, Hh, Hw, Hc. destruct s1, s2. simpl in *. congruence.
Qed.

Lemma BackWarp_call_inv (image flow out : tensor) :
  BackWarp.call BackWarp.build (image, flow) = Some out ->
  (2 <= height (tshape image))%nat /\ (2 <= width (tshape image))%nat /\
  tshape flow = Shape (batch (tshape image)) (height (tshape image))
                      (width (tshape image)) 2 /\
  tshape out = tshape image /\
  forall b i j c,
    elt out b i j c =
      interpolate_bilinear image b
        (INR i - elt flow b i j 0) (INR j - elt flow b i j 1) c.
Proof.
  unfold BackWarp.call, BackWarp.build. cbn [BackWarp.backwarp]. intros H.
  apply bind_Some in H as (r & Hr & H). injection H as <-.
  unfold dense_image_warp in Hr.
  destruct (Nat.leb_spec 2 (height (tshape image))); [| discriminate].
  destruct (Nat.leb_spec 2 (width (tshape image))); [| discriminate].
  cbn [andb] in Hr.
  destruct (shape_eqb _ _) eqn:E in Hr; [| discriminate].
  apply shape_eqb_eq in E. injection Hr as <-. cbn [tshape elt]. auto 6.
Qed.

Lemma floor_index_range (size : nat) (q : R) :
  (2 <= size)%nat ->
  (Z.to_nat (floor_index size q) + 1 < size)%nat.
Proof. intros H. unfold floor_index. lia. Qed.

Lemma weight_range (v : R) : 0 <= Rmin (Rmax 0 v) 1 <= 1.
Proof.
  split.
  - apply Rmin_glb; [apply Rmax_l | lra].
  - apply Rmin_r.
Qed.

Lemma lerp_bounds (a p q m M : R) :
  0 <= a <= 1 -> m <= p <= M -> m <= q <= M -> m <= a * (q - p) + p <= M.
Proof. intros Ha Hp Hq. split; nra. Qed.

(** Every interpolated value is a mean of four pixels of the image. *)
Lemma interpolate_bilinear_bounds (x : tensor) (b c : nat) (qy qx m M : R) :
  (2 <= height (tshape x))%nat -> (2 <= width (tshape x))%nat ->
  (b < batch (tshape x))%nat -> (c < channels (tshape x))%nat ->
  (forall b' i j c', in_range (tshape x) b' i j c' -> m <= elt x b' i j c' <= M) ->
  m <= interpolate_bilinear x b qy qx c <= M.
Proof.
  intros Hh Hw Hb Hc Hx. unfold interpolate_bilinear.
  pose proof (floor_index_range _ qy Hh) as Hy.
  pose proof (floor_index_range _ qx Hw) as Hxr.
  repeat apply lerp_bounds; try apply weight_range;
    apply Hx; unfold in_range; lia.
Qed.

Lemma BackWarp_call_range_entries (image flow out : tensor) (m M : R) :
  BackWarp.call BackWarp.build (image, flow) = Some out ->
  (forall b i j c, in_range (tshape image) b i j c -> m <= elt image b i j c <= M) ->
  forall b i j c, in_range (tshape out) b i j c -> m <= elt out b i j c <= M.
Proof.
  intros H Hx b i j c Hr.
  destruct (BackWarp_call_inv _ _ _ H) as (Hh & Hw & _ & So & Eo).
  rewrite So in Hr. destruct Hr as (Hb & _ & _ & Hc). rewrite Eo.
  now apply interpolate_bilinear_bounds.
Qed.

(** X2. [BackWarp.call] never reads outside the image: every pixel of the
    warped image is the mean, with weights [ay] and [ax] between 0 and 1, of
    four neighbouring pixels of the image, whatever the flow; so when every
    pixel of the image lies between [m] and [M], so does every pixel of the
    warped image. *)
Theorem BackWarp_call_range (image flow out : tensor) (m M : R) :
  BackWarp.call BackWarp.build (image, flow) = Some out ->
  (forall b i j c, in_range (tshape out) b i j c ->
     exists y0 x0 ay ax,
       in_range (tshape image) b y0 x0 c /\
       in_range (tshape image) b (y0 + 1) (x0 + 1) c /\
       0 <= ay <= 1 /\ 0 <= ax <= 1 /\
       elt out b i j c =
         (1 - ay) * (1 - ax) * elt image b y0 x0 c +
         (1 - ay) * ax * elt image b y0 (x0 + 1) c +
         ay * (1 - ax) * elt image b (y0 + 1) x0 c +
         ay * ax * elt image b (y0 + 1) (x0 + 1) c) /\
  ((forall b i j c, in_range (tshape image) b i j c -> m <= elt image b i j c <= M) ->
   forall b i j c, in_range (tshape out) b i j c -> m <= elt out b i j c <= M).
Proof.
  intros H. split; [| now apply BackWarp_call_range_entries with (flow := flow)].
  intros b i j c Hr.
  destruct (BackWarp_call_inv _ _ _ H) as (Hh & Hw & _ & So & Eo).
  rewrite So in Hr. destruct Hr as (Hb & _ & _ & Hc).
  set (qy := INR i - elt flow b i j 0). set (qx := INR j - elt flow b i j 1).
  pose proof (floor_index_range _ qy Hh) as Hy.
  pose proof (floor_index_range _ qx Hw) as Hx.
  exists (Z.to_nat (floor_index (height (tshape image)) qy)),
    (Z.to_nat (floor_index (width (tshape image)) qx)),
    (Rmin (Rmax 0 (qy - IZR (floor_index (height (tshape image)) qy))) 1),
    (Rmin (Rmax 0 (qx - IZR (floor_index (width (tshape image)) qx))) 1).
  split; [unfold in_range; lia |]. split; [unfold in_range; lia |].
  split; [apply weight_range |]. split; [apply weight_range |].
  rewrite Eo. fold qy qx. unfold interpolate_bilinear. ring.
Qed.

Lemma BackWarp_call_range_witness :
  exists out,
    BackWarp.call BackWarp.build (example_frames, example_half_flow) = Some out /\
    0 <= elt out 0 1 1 2 <= 1.
Proof.
  eexists. split; [reflexivity |].
  refine (proj2 (BackWarp_call_range example_frames example_half_flow _ 0 1 eq_refl)
            _ 0%nat 1%nat 1%nat 2%nat _).
  - intros b i j c _. simpl. lra.
  - unfold in_range. simpl. lia.
Defined.

(** ** Edge cases of the blend *)

(** X4. Where both visibility maps are zero, [Output.call] predicts 0: the
    term [1e-12] keeps the quotient defined.  At [t = 0] the second frame
    does not contribute, the pixel is [v_t0 g0 / (v_t0 + 1e-12)]; at [t = 1]
    the first frame does not, the pixel is [v_t1 g1 / (v_t1 + 1e-12)]. *)
Theorem Output_call_edges (self : Output.t)
  (frames_0 f_t0 v_t0 frames_1 f_t1 v_t1 t frame_pred : tensor) :
  Output.call self (frames_0, f_t0, v_t0, frames_1, f_t1, v_t1, t) = Some frame_pred ->
  exists g_i0_ft0 g_i1_ft1,
    BackWarp.call (Output.backwarp_layer_t0 self) (frames_0, f_t0) = Some g_i0_ft0 /\
    BackWarp.call (Output.backwarp_layer_t1 self) (frames_1, f_t1) = Some g_i1_ft1 /\
    forall b i j c,
      (belt v_t0 b i j c = 0 -> belt v_t1 b i j c = 0 -> elt frame_pred b i j c = 0) /\
      (belt t b i j c = 0 ->
       elt frame_pred b i j c =
         belt v_t0 b i j c * belt g_i0_ft0 b i j c / (belt v_t0 b i j c + 1e-12)) /\
      (belt t b i j c = 1 ->
       elt frame_pred b i j c =
         belt v_t1 b i j c * belt g_i1_ft1 b i j c / (belt v_t1 b i j c + 1e-12)).
Proof.
  intros H.
  destruct (Output_call_values _ _ _ _ _ _ _ _ _ H) as (g0 & g1 & Hg0 & Hg1 & Hv).
  exists g0, g1. split; [exact Hg0 |]. split; [exact Hg1 |].
  intros b i j c. rewrite Hv. split; [| split].
  - intros -> ->. unfold Rdiv. ring.
  - intros ->. f_equal; ring.
  - intros ->. f_equal; ring.
Qed.

Lemma Output_call_edges_witness :
  exists frame_pred,
    Output.call Output.build
      (example_frames, example_flow, example_hidden,
       example_frames, example_flow, example_hidden, example_time)
    = Some frame_pred /\
    elt frame_pred 0 0 0 0 = 0.
Proof.
  eexists. split; [reflexivity |].
  destruct (Output_call_edges Output.build
              example_frames example_flow example_hidden
              example_frames example_flow example_hidden example_time _ eq_refl)
    as (g0 & g1 & _ & _ & Hv).
  apply (proj1 (Hv 0%nat 0%nat 0%nat 0%nat)); reflexivity.
Defined.

(** ** [OpticalFlow.call] at the ends of the time interval *)

Lemma intermediate_flows_reads (f_01 f_10 t f_t0_t f_t1_t : tensor) :
  OpticalFlow.intermediate_flows f_01 f_10 t = Some (f_t0_t, f_t1_t) ->
  forall b i j c,
    (bread f_t0_t b i j c -> bread t b i j c) /\
    (bread f_t1_t b i j c -> bread t b i j c).
Proof.
  unfold OpticalFlow.intermediate_flows, tf_mul, tf_add, tf_sub, rsub, rmul.
  intros H.
  apply bind_Some in H as (t0 & H0 & H). apply bind_Some in H as (t1 & H1 & H).
  apply bind_Some in H as (a & Ha & H). apply bind_Some in H as (b' & Hb & H).
  apply bind_Some in H as (f0 & Hf0 & H). apply bind_Some in H as (t1' & H1' & H).
  apply bind_Some in H as (a' & Ha' & H). apply bind_Some in H as (b'' & Hb' & H).
  apply bind_Some in H as (f1 & Hf1 & H). injection H as <- <-.
  intros b i j c. split; intros Hr.
  - destruct (tzip_bread _ _ _ _ _ _ _ _ Hf0 Hr) as [Ra _].
    destruct (tzip_bread _ _ _ _ _ _ _ _ Ha Ra) as [Rt0 _].
    destruct (tzip_bread _ _ _ _ _ _ _ _ H0 Rt0) as [_ Rt]. exact Rt.
  - destruct (tzip_bread _ _ _ _ _ _ _ _ Hf1 Hr) as [_ Rb].
    destruct (tzip_bread _ _ _ _ _ _ _ _ Hb' Rb) as [Rt0 _].
    destruct (tzip_bread _ _ _ _ _ _ _ _ H0 Rt0) as [_ Rt]. exact Rt.
Qed.

(** A warp by a flow that is zero on the image grid gives back the image. *)
Lemma BackWarp_call_still (image flow out : tensor) :
  BackWarp.call BackWarp.build (image, flow) = Some out ->
  (forall b i j k, in_range (tshape flow) b i j k -> elt flow b i j k = 0) ->
  same_tensor out image.
Proof.
  intros H Hz. destruct (BackWarp_call_inv _ _ _ H) as (Hh & Hw & Sf & So & Eo).
  split; [exact So |].
  intros b i j c Hr. rewrite So in Hr. destruct Hr as (Hb & Hi & Hj & Hc).
  rewrite Eo, !Hz by (rewrite Sf; unfold in_range; simpl; lia).
  rewrite !Rminus_0_r. now apply interpolate_bilinear_grid.
Qed.

(** X6. At the ends of the time interval [OpticalFlow.call] returns an input
    frame unchanged: when [t] is 0 everywhere, the intermediate flow [f_t0_t]
    is zero and [g_i0_ft0] is [frames_0]; when [t] is 1 everywhere, [f_t1_t] is
    zero and [g_i1_ft1] is [frames_1]. *)
Theorem OpticalFlow_call_endpoints
  {F : Framework} (w : UNet.weights)
  (frames_0 frames_1 f_01 f_10 t : tensor)
  (f_t0 v_t0 f_t1 v_t1 g_i0_ft0 g_i1_ft1 : tensor) :
  OpticalFlow.call (OpticalFlow.build w) (frames_0, frames_1, f_01, f_10, t)
    = Some (f_t0, v_t0, f_t1, v_t1, g_i0_ft0, g_i1_ft1) ->
  ((forall b i j c, in_range (tshape t) b i j c -> elt t b i j c = 0) ->
   same_tensor g_i0_ft0 frames_0) /\
  ((forall b i j c, in_range (tshape t) b i j c -> elt t b i j c = 1) ->
   same_tensor g_i1_ft1 frames_1).
Proof.
  unfold OpticalFlow.call, OpticalFlow.build.
  cbn [OpticalFlow.flow_interp_layer OpticalFlow.backwarp_layer_t0
       OpticalFlow.backwarp_layer_t1].
  intros H.
  apply bind_Some in H as ([f_t0_t f_t1_t] & Hint & H).
  apply bind_Some in H as (g0 & Hg0 & H). apply bind_Some in H as (g1 & Hg1 & H).
  apply bind_Some in H as (cat & _ & H). apply bind_Some in H as (o & _ & H).
  apply bind_Some in H as (f0 & _ & H). apply bind_Some in H as (f1 & _ & H).
  injection H as <- <- <- <- <- <-.
  pose proof (intermediate_flows_values _ _ _ _ _ Hint) as Hv.
  pose proof (intermediate_flows_reads _ _ _ _ _ Hint) as Hreads.
  split; intros Ht.
  - apply (BackWarp_call_still _ _ _ Hg0). intros b i j k Hr.
    destruct (Hv b i j k) as [-> _].
    destruct (Hreads b i j k) as [Rt _]. specialize (Rt (in_range_bread _ _ _ _ _ Hr)).
    rewrite (belt_bread (fun v => v = 0) t b i j k Ht Rt). ring.
  - apply (BackWarp_call_still _ _ _ Hg1). intros b i j k Hr.
    destruct (Hv b i j k) as [_ ->].
    destruct (Hreads b i j k) as [_ Rt]. specialize (Rt (in_range_bread _ _ _ _ _ Hr)).
    rewrite (belt_bread (fun v => v = 1) t b i j k Ht Rt). ring.
Qed.

Lemma OpticalFlow_call_endpoints_witness :
  exists f_t0 v_t0 f_t1 v_t1 g_i0_ft0 g_i1_ft1,
    OpticalFlow.call (F := reference) (OpticalFlow.build zero_weights)
      (example_frames32, example_frames32, example_flow32, example_flow32, example_time0)
    = Some (f_t0, v_t0, f_t1, v_t1, g_i0_ft0, g_i1_ft1) /\
    same_tensor g_i0_ft0 example_frames32.
Proof.
  assert (H32 : (32 <= 32)%nat) by lia.
  destruct (OpticalFlow_call_steps (F := reference) (FS := reference_shapes)
              zero_weights example_frames32 example_frames32
              example_flow32 example_flow32 example_time0 1 32 32 3 1
              eq_refl eq_refl eq_refl eq_refl eq_refl (or_introl eq_refl) H32 H32)
    as (f_t0_t & f_t1_t & g0 & g1 & cat & out & f_t0 & f_t1 & _ & _ & _ & _ & _ & _
        & _ & _ & _ & _ & _ & Hcall).
  do 6 eexists. split; [exact Hcall |].
  apply (proj1 (OpticalFlow_call_endpoints _ _ _ _ _ _ _ _ _ _ _ _ Hcall)).
  reflexivity.
Defined.

(** ** The inputs [Decoder.call] accepts *)

Section DecoderDomain.
Context {F : Framework} {FS : FrameworkShapes F} {FE : FrameworkErrors F}.

(** X7. [Decoder.call] returns exactly when [x] has at least one row and one
    column and [skip] has the batch size of [x] and at least twice its height
    and width: the upsampling refuses an image without rows or columns, a
    smaller [skip] asks [tf.pad] for a negative padding, another batch size
    cannot be concatenated. *)
Theorem Decoder_call_domain (filters : nat) (w : Decoder.weights) (x skip : tensor) :
  (exists y, Decoder.call (Decoder.build filters w) (x, skip) = Some y) <->
  (1 <= height (tshape x))%nat /\ (1 <= width (tshape x))%nat /\
  batch (tshape x) = batch (tshape skip) /\
  (2 * height (tshape x) <= height (tshape skip))%nat /\
  (2 * width (tshape x) <= width (tshape skip))%nat.
Proof.
  split.
  - intros [y H]. unfold Decoder.call, Decoder.build, Decoder.paddings in H.
    cbn [Decoder.interpolation Decoder.conv1 Decoder.conv2 Decoder.leaky_relu] in H.
    apply bind_Some in H as (u & Hu & H). apply bind_Some in H as (c1 & H1 & H).
    apply bind_Some in H as (p & Hp & H). apply bind_Some in H as (cat & Hc & H).
    assert (Hx : (1 <= height (tshape x))%nat /\ (1 <= width (tshape x))%nat).
    { destruct (Nat.eq_dec (height (tshape x)) 0) as [E | E];
        [rewrite up_sampling2d_empty in Hu by (now left); discriminate |].
      destruct (Nat.eq_dec (width (tshape x)) 0) as [E' | E'];
        [rewrite up_sampling2d_empty in Hu by (now right); discriminate |].
      lia. }
    destruct Hx as [Hx1 Hx2].
    destruct (up_sampling2d_shape bilinear x Hx1 Hx2) as (u' & Hu' & Su).
    rewrite Hu in Hu'. injection Hu' as <-.
    destruct (conv2d_shape (Conv2D.new filters 3 1 same (Decoder.w_conv1 w)) u
                eq_refl eq_refl) as (c1' & H1' & S1);
      [simpl; lia | rewrite Su; cbn [height]; lia | rewrite Su; cbn [width]; lia |].
    rewrite H1 in H1'. injection H1' as <-.
    set (r := LeakyReLU.call (LeakyReLU.new 0.1) c1) in *.
    assert (Sr : tshape r = Shape (batch (tshape x)) (2 * height (tshape x))
                                  (2 * width (tshape x)) filters).
    { unfold r. rewrite LeakyReLU_call_shape, S1, Su. reflexivity. }
    destruct (tf_pad_trailing_inv _ _ _ _ Hp) as [Hpx Hpy].
    destruct (tf_pad_trailing r _ _ Hpx Hpy) as (p' & Hp' & Sp & _).
    rewrite Hp in Hp'. injection Hp' as <-.
    cbn [tf_concat3 fold_left bind] in Hc.
    destruct (concat2_inv _ _ _ Hc) as (Eb & _ & _).
    rewrite Sp, Sr in Eb. cbn [batch] in Eb.
    rewrite Sr in Hpx, Hpy. cbn [height width] in Hpx, Hpy.
    split; [exact Hx1 |]. split; [exact Hx2 |]. split; [exact Eb |]. split; lia.
  - intros (Hx1 & Hx2 & Hb & Hh & Hw).
    destruct (Decoder_call_shape filters w x skip Hx1 Hx2 Hb Hh Hw) as (y & Hy & _).
    exists y. exact Hy.
Qed.

End DecoderDomain.

Lemma Decoder_call_domain_witness :
  (exists y, Decoder.call (F := reference) (Decoder.build 8 zero_decoder)
               (example_frames, example_skip) = Some y) /\
  ~ (exists y, Decoder.call (F := reference) (Decoder.build 8 zero_decoder)
                 (example_skip, example_frames) = Some y) /\
  ~ (exists y, Decoder.call (F := reference) (Decoder.build 8 zero_decoder)
                 (example_empty, example_frames) = Some y).
Proof.
  split; [| split].
  - apply (proj2 (Decoder_call_domain (FS := reference_shapes) (FE := reference_errors)
                    8 zero_decoder example_frames example_skip)).
    simpl. lia.
  - intros H.
    apply (proj1 (Decoder_call_domain (FS := reference_shapes) (FE := reference_errors)
                    8 zero_decoder example_skip example_frames)) in H.
    simpl in H. lia.
  - intros H.
    apply (proj1 (Decoder_call_domain (FS := reference_shapes) (FE := reference_errors)
                    8 zero_decoder example_empty example_frames)) in H.
    simpl in H. lia.
Defined.

(** ** The feature pyramid of the UNet *)

Section Pyramid.
Context {F : Framework} {FS : FrameworkShapes F}.


End Pyramid.


(** ** [OpticalFlow.call] followed by [Output.call] *)

Lemma Output_call_Some
  (frames_0 f_t0 v_t0 frames_1 f_t1 v_t1 t : tensor) (B H W C Bt : nat) :
  tshape frames_0 = Shape B H W C -> tshape frames_1 = Shape B H W C ->
  tshape f_t0 = Shape B H W 2 -> tshape f_t1 = Shape B H W 2 ->
  tshape v_t0 = Shape B H W 1 -> tshape v_t1 = Shape B H W 1 ->
  tshape t = Shape Bt 1 1 1 -> Bt = 1%nat \/ Bt = B ->
  (2 <= H)%nat -> (2 <= W)%nat ->
  exists frame_pred,
    Output.call Output.build (frames_0, f_t0, v_t0, frames_1, f_t1, v_t1, t)
      = Some frame_pred /\
    tshape frame_pred = Shape B H W C.
Proof.
  intros S0 S1 Sf0 Sf1 Sv0 Sv1 St HBt Hh Hw.
  destruct (BackWarp_call_Some frames_0 f_t0 B H W C S0 Sf0 Hh Hw) as (g0 & Hg0 & Sg0 & _).
  destruct (BackWarp_call_Some frames_1 f_t1 B H W C S1 Sf1 Hh Hw) as (g1 & Hg1 & Sg1 & _).
  unfold Output.call. cbn [Output.build Output.backwarp_layer_t0 Output.backwarp_layer_t1].
  rewrite Hg0, Hg1. cbn [bind].
  unfold Output.denominator, Output.numerator, tf_mul, tf_add, tf_divide, radd.
  destruct (tzip_to_l Rmult (rsub 1 t) v_t0) as (p & Hp & Sp);
    [rewrite Sv0; unfold rsub; cbn [tmap tshape]; rewrite St; now apply time_broadcasts |].
  destruct (tzip_to_l Rmult t v_t1) as (q & Hq & Sq);
    [rewrite Sv1, St; now apply time_broadcasts |].
  destruct (tzip_to_l Rplus p q) as (s & Hs & Ss);
    [rewrite Sp, Sq, Sv0, Sv1; apply broadcasts_to_refl |].
  destruct (tzip_to_l Rmult p g0) as (a & Ha & Sa);
    [rewrite Sp, Sv0, Sg0; apply map_broadcasts |].
  destruct (tzip_to_l Rmult q g1) as (a' & Ha' & Sa');
    [rewrite Sq, Sv1, Sg1; apply map_broadcasts |].
  destruct (tzip_to_l Rplus a a') as (n & Hn & Sn);
    [rewrite Sa, Sa', Sg0, Sg1; apply broadcasts_to_refl |].
  destruct (tzip_to_r Rdiv n (tmap (fun v => v + 1e-12) s)) as (o & Hd & So);
    [cbn [tmap tshape]; rewrite Ss, Sq, Sv1, Sn, Sa', Sg1; apply map_broadcasts |].
  rewrite Hp, Hq. cbn [bind]. rewrite Hs. cbn [bind]. rewrite Ha. cbn [bind].
  rewrite Ha'. cbn [bind]. rewrite Hn. cbn [bind]. rewrite Hd. cbn [bind].
  exists o. split; [reflexivity |]. now rewrite So, Sn, Sa', Sg1.
Qed.

Section Pipeline.
Context {F : Framework} {FS : FrameworkShapes F}.

(** X10. The two layers compose: what [OpticalFlow.call] returns for frames
    of shape [[B, H, W, C]] with [H, W >= 32] is accepted by [Output.call],
    whose prediction has the shape of the frames. *)
Theorem OpticalFlow_Output_compose (w : UNet.weights)
  (frames_0 frames_1 f_01 f_10 t : tensor) (B H W C Bt : nat) :
  tshape frames_0 = Shape B H W C -> tshape frames_1 = Shape B H W C ->
  tshape f_01 = Shape B H W 2 -> tshape f_10 = Shape B H W 2 ->
  tshape t = Shape Bt 1 1 1 -> Bt = 1%nat \/ Bt = B ->
  (32 <= H)%nat -> (32 <= W)%nat ->
  exists f_t0 v_t0 f_t1 v_t1 g_i0_ft0 g_i1_ft1 frame_pred,
    OpticalFlow.call (OpticalFlow.build w) (frames_0, frames_1, f_01, f_10, t)
      = Some (f_t0, v_t0, f_t1, v_t1, g_i0_ft0, g_i1_ft1) /\
    tshape f_t0 = Shape B H W 2 /\ tshape f_t1 = Shape B H W 2 /\
    tshape v_t0 = Shape B H W 1 /\ tshape v_t1 = Shape B H W 1 /\
    Output.call Output.build (frames_0, f_t0, v_t0, frames_1, f_t1, v_t1, t)
      = Some frame_pred /\
    tshape frame_pred = Shape B H W C.
Proof.
  intros S0 S1 S01 S10 St HBt Hh Hw.
  destruct (OpticalFlow_call_steps w frames_0 frames_1 f_01 f_10 t B H W C Bt
              S0 S1 S01 S10 St HBt Hh Hw)
    as (f_t0_t & f_t1_t & g0 & g1 & cat & out & f_t0 & f_t1 & _ & Sf0 & Sf1 & _
        & _ & _ & _ & _ & Sout & Hf0 & Hf1 & Hcall).
  assert (Sd0 : tshape (slice_channels 0 2 out) = Shape B H W 2)
    by (unfold slice_channels; cbn [tshape]; now rewrite Sout).
  assert (Sd1 : tshape (slice_channels 2 4 out) = Shape B H W 2)
    by (unfold slice_channels; cbn [tshape]; now rewrite Sout).
  destruct (tzip_same_shape _ _ _ _ _ Sf0 Sd0 Hf0) as [Sr0 _].
  destruct (tzip_same_shape _ _ _ _ _ Sf1 Sd1 Hf1) as [Sr1 _].
  set (v_t0 := tmap sigmoid (slice_channels 4 5 out)) in *.
  set (v_t1 := rsub 1 v_t0) in *.
  assert (Sv0 : tshape v_t0 = Shape B H W 1)
    by (unfold v_t0, slice_channels; cbn [tmap tshape]; now rewrite Sout).
  assert (Sv1 : tshape v_t1 = Shape B H W 1) by exact Sv0.
  assert (H2 : (2 <= H)%nat) by lia. assert (W2 : (2 <= W)%nat) by lia.
  destruct (Output_call_Some frames_0 f_t0 v_t0 frames_1 f_t1 v_t1 t B H W C Bt
              S0 S1 Sr0 Sr1 Sv0 Sv1 St HBt H2 W2) as (frame_pred & Hout & Sp).
  exists f_t0, v_t0, f_t1, v_t1, g0, g1, frame_pred. auto 10.
Qed.

End Pipeline.

Lemma OpticalFlow_Output_compose_witness :
  exists f_t0 v_t0 f_t1 v_t1 g_i0_ft0 g_i1_ft1 frame_pred,
    OpticalFlow.call (F := reference) (OpticalFlow.build zero_weights)
      (example_frames32, example_frames32, example_flow32, example_flow32, example_time)
    = Some (f_t0, v_t0, f_t1, v_t1, g_i0_ft0, g_i1_ft1) /\
    Output.call Output.build
      (example_frames32, f_t0, v_t0, example_frames32, f_t1, v_t1, example_time)
    = Some frame_pred /\
    tshape frame_pred = Shape 1 32 32 3.
Proof.
  assert (H32 : (32 <= 32)%nat) by lia.
  destruct (OpticalFlow_Output_compose (F := reference) (FS := reference_shapes)
              zero_weights example_frames32 example_frames32
              example_flow32 example_flow32 example_time 1 32 32 3 1
              eq_refl eq_refl eq_refl eq_refl eq_refl (or_introl eq_refl) H32 H32)
    as (f_t0 & v_t0 & f_t1 & v_t1 & g0 & g1 & frame_pred & Hcall & _ & _ & _ & _
        & Hout & Sp).
  exists f_t0, v_t0, f_t1, v_t1, g0, g1, frame_pred.
  split; [exact Hcall |]. split; [exact Hout | exact Sp].
Defined.

(** ** Warping by whole pixels *)

Lemma floor_index_integer (size : nat) (z : Z) :
  (2 <= size)%nat ->
  let f := floor_index size (IZR z) in
  let a := Rmin (Rmax 0 (IZR z - IZR f)) 1 in
  (Z.to_nat f = nearest_index size z /\ a = 0) \/
  ((Z.to_nat f + 1)%nat = nearest_index size z /\ a = 1).
Proof.
  intros Hs. unfold floor_index, nearest_index. rewrite ZfloorZ.
  destruct (Z_lt_le_dec z 0) as [Hn | Hn]; [| destruct (Z_lt_le_dec z (Z.of_nat size - 1)) as [Hi | Hi]].
  - left. replace (Z.min (Z.max 0 z) (Z.of_nat size - 2)) with 0%Z by lia.
    split; [lia |]. apply IZR_lt in Hn.
    rewrite Rmax_left by lra. apply Rmin_left. lra.
  - left. replace (Z.min (Z.max 0 z) (Z.of_nat size - 2)) with z by lia.
    split; [lia |]. replace (IZR z - IZR z) with 0 by ring.
    rewrite Rmax_left by lra. apply Rmin_left. lra.
  - right. replace (Z.min (Z.max 0 z) (Z.of_nat size - 2)) with (Z.of_nat size - 2)%Z by lia.
    split; [lia |]. apply IZR_le in Hi. rewrite !minus_IZR in *.
    rewrite Rmax_right by lra. apply Rmin_right. lra.
Qed.

Lemma interpolate_bilinear_integer (x : tensor) (b c : nat) (zy zx : Z) :
  (2 <= height (tshape x))%nat -> (2 <= width (tshape x))%nat ->
  interpolate_bilinear x b (IZR zy) (IZR zx) c =
    elt x b (nearest_index (height (tshape x)) zy)
            (nearest_index (width (tshape x)) zx) c.
Proof.
  intros Hh Hw. unfold interpolate_bilinear.
  destruct (floor_index_integer _ zy Hh) as [[Ey ->] | [Ey ->]];
    destruct (floor_index_integer _ zx Hw) as [[Ex ->] | [Ex ->]];
    rewrite <- Ey, <- Ex; ring.
Qed.

(** X11. [BackWarp.call] moves pixels backwards along the flow: at a pixel
    [(i, j)] where the flow is a whole number of pixels [(dy, dx)], whatever
    it is elsewhere, the output pixel is the image pixel [(i - dy, j - dx)],
    and the nearest border pixel when that location falls outside the
    image. *)
Theorem BackWarp_call_whole_pixels (image flow out : tensor)
  (b i j c : nat) (dy dx : Z) :
  BackWarp.call BackWarp.build (image, flow) = Some out ->
  in_range (tshape out) b i j c ->
  elt flow b i j 0 = IZR dy -> elt flow b i j 1 = IZR dx ->
  elt out b i j c =
    elt image b
      (nearest_index (height (tshape image)) (Z.of_nat i - dy))
      (nearest_index (width (tshape image)) (Z.of_nat j - dx)) c.
Proof.
  intros H Hr Ey Ex.
  destruct (BackWarp_call_inv _ _ _ H) as (Hh & Hw & _ & So & Eo).
  rewrite Eo, Ey, Ex, !INR_IZR_INZ, <- !minus_IZR.
  now apply interpolate_bilinear_integer.
Qed.

Lemma BackWarp_call_whole_pixels_witness :
  exists out,
    BackWarp.call BackWarp.build (example_ramp, example_down) = Some out /\
    elt out 0 2 1 0 = elt example_ramp 0 1 1 0 /\
    elt out 0 0 1 0 = elt example_ramp 0 0 1 0.
Proof.
  eexists. split; [reflexivity |].
  assert (R1 : in_range (Shape 1 3 3 1) 0 2 1 0) by (unfold in_range; simpl; lia).
  assert (R2 : in_range (Shape 1 3 3 1) 0 0 1 0) by (unfold in_range; simpl; lia).
  split.
  - exact (BackWarp_call_whole_pixels example_ramp example_down _ 0 2 1 0 1 0
             eq_refl R1 eq_refl eq_refl).
  - exact (BackWarp_call_whole_pixels example_ramp example_down _ 0 0 1 0 1 0
             eq_refl R2 eq_refl eq_refl).
Defined.
